(** * QuizYoSelf: the quiz manager of [streamlit_app.py]

    A shallow embedding of class [QuizManager] (CSV loading, quiz start,
    answer scoring, session history) and of the option display of
    [display_quiz_question], followed by the properties of the
    specification that were checked against it.

    Conventions of the embedding.
    - A Python [str] is a Rocq [string]; every character stands for the
      code point of the same number (0..255).
    - A Python [dict] is an insertion-ordered association list with unique
      keys ([dict], [dget], [dset]).
    - Counters that the program only ever initialises to 0 and increments
      are [nat]; other integers are [Z].
    - [random] is an explicit stream of draws, [datetime.now()] an explicit
      clock value, and exceptions are values of type [result]. *)

From Stdlib Require Import Ascii String ZArith Floats.SpecFloat.
From stdpp Require Import base numbers option strings list.

Set Default Proof Using "Type".

(* ================================================================== *)
(** ** Exceptions *)
(* ================================================================== *)

(** [Exception kind msg]: an exception of class [kind] with [str(e) = msg]. *)
Inductive exception : Type :=
  Exception (kind : string) (msg : string).

Definition str_of_exception (e : exception) : string :=
  match e with Exception _ msg => msg end.

Inductive result (A : Type) : Type :=
  | Return (a : A)
  | Raise (e : exception).
Arguments Return {A} a.
Arguments Raise {A} e.

Definition result_bind {A B} (f : A → result B) (m : result A) : result B :=
  match m with
  | Return a => f a
  | Raise e => Raise e
  end.

#[global] Instance result_mret : MRet result := λ A a, Return a.
#[global] Instance result_mbind : MBind result := λ A B f m, result_bind f m.

Definition KeyError (key_repr : string) : exception :=
  Exception "KeyError" key_repr.
Definition ValueError (msg : string) : exception :=
  Exception "ValueError" msg.
Definition TypeError (msg : string) : exception :=
  Exception "TypeError" msg.
Definition AttributeError (msg : string) : exception :=
  Exception "AttributeError" msg.
Definition UnicodeDecodeError (msg : string) : exception :=
  Exception "UnicodeDecodeError" msg.
Definition ZeroDivisionError : exception :=
  Exception "ZeroDivisionError" "division by zero".
Definition OverflowError (msg : string) : exception :=
  Exception "OverflowError" msg.

(* ================================================================== *)
(** ** Python dictionaries: insertion-ordered, unique keys *)
(* ================================================================== *)

Section dict.
Context {K V : Type} `{EqDecision K}.

Definition dict : Type := list (K * V).

(** [d.get(k)] *)
Fixpoint dget (k : K) (d : dict) : option V :=
  match d with
  | [] => None
  | (k', v) :: d' => if decide (k = k') then Some v else dget k d'
  end.

(** [d[k] = v]: an existing key keeps its place, a new key goes last. *)
Fixpoint dset (k : K) (v : V) (d : dict) : dict :=
  match d with
  | [] => [(k, v)]
  | (k', v') :: d' =>
      if decide (k = k') then (k, v) :: d' else (k', v') :: dset k v d'
  end.

(** [k in d] *)
Definition dmem (k : K) (d : dict) : bool :=
  match dget k d with Some _ => true | None => false end.

Definition dkeys (d : dict) : list K := d.*1.
Definition dvalues (d : dict) : list V := d.*2.
End dict.
Arguments dict : clear implicits.

(* ================================================================== *)
(** ** Strings: [str.strip] and [repr] *)
(* ================================================================== *)

(** [str.isspace] on one character: the white space among the code points
    0..255 is TAB..CR, FS..US, SPACE, NEL (0x85) and NBSP (0xA0). *)
Definition isspace (c : ascii) : bool :=
  let n := N_of_ascii c in
  ((9 <=? n) && (n <=? 13) || (28 <=? n) && (n <=? 32)
   || (n =? 133) || (n =? 160))%N.

Fixpoint lstrip_chars (l : list ascii) : list ascii :=
  match l with
  | [] => []
  | c :: l' => if isspace c then lstrip_chars l' else l
  end.

Definition rstrip_chars (l : list ascii) : list ascii :=
  reverse (lstrip_chars (reverse l)).

(** [s.strip()] *)
Definition strip (s : string) : string :=
  string_of_list_ascii (rstrip_chars (lstrip_chars (list_ascii_of_string s))).

(** [str.isprintable] on one character. *)
Definition isprintable (c : ascii) : bool :=
  let n := N_of_ascii c in
  ((32 <=? n) && (n <? 127) || (161 <=? n) && negb (n =? 173))%N.

Definition hex_digit (n : N) : ascii :=
  ascii_of_N (if (n <? 10)%N then 48 + n else 87 + n)%N.

Definition apostrophe : ascii := ascii_of_N 39.
Definition double_quote : ascii := ascii_of_N 34.
Definition backslash : ascii := ascii_of_N 92.

Definition hex_escape (c : ascii) : list ascii :=
  let n := N_of_ascii c in
  [backslash; "x"%char; hex_digit (n / 16)%N; hex_digit (n mod 16)%N].

Definition repr_char (quote c : ascii) : list ascii :=
  if decide (c = quote) then [backslash; c]
  else if decide (c = backslash) then [backslash; backslash]
  else if decide (c = ascii_of_N 9) then [backslash; "t"%char]
  else if decide (c = ascii_of_N 10) then [backslash; "n"%char]
  else if decide (c = ascii_of_N 13) then [backslash; "r"%char]
  else if isprintable c then [c]
  else hex_escape c.

(** [repr(s)] for a [str]: single quotes, unless the text has a single
    quote and no double quote. *)
Definition repr_str (s : string) : string :=
  let l := list_ascii_of_string s in
  let quote :=
    if bool_decide (apostrophe ∈ l) && negb (bool_decide (double_quote ∈ l))
    then double_quote else apostrophe in
  string_of_list_ascii (quote :: mbind (repr_char quote) l ++ [quote]).

Fixpoint join (sep : string) (l : list string) : string :=
  match l with
  | [] => EmptyString
  | [s] => s
  | s :: l' => s +:+ sep +:+ join sep l'
  end.

(** [repr(l)] for a list of [str]. *)
Definition repr_list (l : list string) : string :=
  "[" +:+ join ", " (repr_str <$> l) +:+ "]".

(* ================================================================== *)
(** ** [random]: draws and [random.shuffle] *)
(* ================================================================== *)

(** The random source: the stream of draws still to come. *)
Definition rng : Type := list nat.

(** [randbelow(n)], for [n > 0]: the next draw, reduced below [n]
    (0 once the stream is used up).  Every value below [n] is the result
    for some stream, so a statement for all streams covers every run. *)
Definition randbelow (n : nat) (g : rng) : nat * rng :=
  match g with
  | [] => (0, [])
  | d :: g' => (Nat.modulo d n, g')
  end.

(** [x[i], x[j] = x[j], x[i]] *)
Definition swap {A} (i j : nat) (x : list A) : list A :=
  match x !! i, x !! j with
  | Some xi, Some xj => <[j := xi]> (<[i := xj]> x)
  | _, _ => x
  end.

(** The loop of [random.shuffle]:
    [for i in reversed(range(1, len(x))): j = randbelow(i + 1); swap],
    entered with [i] the largest index still to be visited. *)
Fixpoint shuffle_from {A} (i : nat) (g : rng) (x : list A) : list A * rng :=
  match i with
  | 0 => (x, g)
  | S i' =>
      let '(j, g') := randbelow (S i) g in
      shuffle_from i' g' (swap i j x)
  end.

(** [random.shuffle(x)] *)
Definition shuffle {A} (g : rng) (x : list A) : list A * rng :=
  shuffle_from (length x - 1) g x.

(** [x[:k]] for an integer [k] (a negative [k] counts from the end). *)
Definition slice_to {A} (k : Z) (x : list A) : list A :=
  if decide (0 ≤ k)%Z then take (Z.to_nat k) x
  else take (Z.to_nat (Z.of_nat (length x) + k)) x.

(* ================================================================== *)
(** ** Floating point: [int / int] and [float * int] on binary64 *)
(* ================================================================== *)

Definition float : Type := spec_float.

(** [float(z)], rounded to nearest even; exact for [|z| < 2^53]. *)
Definition float_of_int (z : Z) : float := binary_normalize 53 1024 z 0 false.

(** An integer as an operand of a division, not rounded: the mantissa
    [|z|] with the exponent 0, whatever its size. *)
Definition float_exact (z : Z) : float :=
  match z with
  | Z0 => S754_zero false
  | Zpos m => S754_finite false m 0
  | Zneg m => S754_finite true m 0
  end.

(** The exact quotient of two integers rounded once, to nearest even:
    [SFdiv] divides the two mantissas as integers and rounds the
    quotient with its remainder, so nothing is lost before the one
    rounding. *)
Definition int_quotient (a b : Z) : float :=
  SFdiv 53 1024 (float_exact a) (float_exact b).

(** [a / b] on integers: [ZeroDivisionError] for a zero divisor,
    [OverflowError] when the rounded quotient is beyond the floats. *)
Definition truediv (a b : Z) : result float :=
  if decide (b = 0)%Z then Raise ZeroDivisionError
  else match int_quotient a b with
       | S754_infinity _ =>
           Raise (OverflowError "integer division result too large for a float")
       | q => Return q
       end.

(** [x * n] with [n] an integer. *)
Definition float_mul_int (x : float) (n : Z) : float :=
  SFmul 53 1024 x (float_of_int n).

(* ================================================================== *)
(** ** The data of [QuizManager] *)
(* ================================================================== *)

(** The question dictionary built by [load_csv]. *)
Record Question : Type := mkQuestion {
  chapter : string;
  question_text : string;
  reasoning : string;
  correct_answer : string;
  alternatives : list string
}.

#[global] Instance Question_eq_dec : EqDecision Question.
Proof. solve_decision. Defined.

(** [{'asked': _, 'correct': _}] *)
Record ChapterStats : Type := mkChapterStats {
  asked : nat;
  correct : nat
}.

(** A missed question: the copy of the question with the two keys
    [user_answer] and [question_number] added.  [None] is Python's [None]. *)
Record MissedQuestion : Type := mkMissedQuestion {
  missed_question : Question;
  user_answer : option string;
  question_number : Z
}.

(** [self.current_stats].  The last three keys are absent ([None]) until
    [start_quiz] has run. *)
Record Stats : Type := mkStats {
  total_questions : nat;
  correct_answers : nat;
  chapter_stats : dict string ChapterStats;
  missed_questions : list MissedQuestion;
  class_name : option string;
  start_time : option Z;
  selected_chapters : option (list string)
}.

(** The [session_data] dictionary appended to [self.history], with the
    content it has when it is appended.  [sd_chapter_stats] is the
    content of the copy made at that time.  The copy of the program is
    shallow: its keys are its own, but the dictionaries of the
    per-chapter counts stay shared with the accumulator, so a later
    [submit_answer] without a [start_quiz] in between changes the counts
    seen through a saved entry.  The properties below read
    [sd_chapter_stats] only in the entry just appended; of the older
    entries they read the other fields and the keys of the copy. *)
Record SessionData : Type := mkSessionData {
  sd_timestamp : Z;
  sd_class_name : string;
  sd_total_questions : nat;
  sd_correct_answers : nat;
  sd_percentage : float;
  sd_missed_questions : nat;
  sd_chapter_stats : dict string ChapterStats;
  sd_selected_chapters : list string
}.

Record QuizManager : Type := mkQuizManager {
  quizzes : dict string (dict string (list Question));
  history : list SessionData;
  current_stats : Stats
}.

(** [QuizManager.__init__] *)
Definition __init__ : QuizManager :=
  {| quizzes := [];
     history := [];
     current_stats :=
       {| total_questions := 0;
          correct_answers := 0;
          chapter_stats := [];
          missed_questions := [];
          class_name := None;
          start_time := None;
          selected_chapters := None |} |}.

(** A method result [(True, value)] or [(False, message)]. *)
Definition outcome (A : Type) : Type := bool * (string + A).

(* ================================================================== *)
(** ** [QuizManager.start_quiz] *)
(* ================================================================== *)

(** The loop collecting the questions of the selected chapters. *)
Definition collect_questions (selected : list string)
    (chapter_questions : dict string (list Question)) : list Question :=
  foldl (λ all_questions chapter,
           match dget chapter chapter_questions with
           | Some qs => all_questions ++ qs
           | None => all_questions
           end) [] selected.

Definition start_quiz (self : QuizManager) (now : Z) (g : rng)
    (class_name : string) (selected_chapters : list string)
    (num_questions : Z) (chapter_questions : dict string (list Question))
    : outcome (list Question) * QuizManager * rng :=
  let self :=
    {| quizzes := quizzes self;
       history := history self;
       current_stats :=
         {| total_questions := 0;
            correct_answers := 0;
            chapter_stats := [];
            missed_questions := [];
            class_name := Some class_name;
            start_time := Some now;
            selected_chapters := Some selected_chapters |} |} in
  let all_questions := collect_questions selected_chapters chapter_questions in
  match all_questions with
  | [] => ((false, inl "No questions available for selected chapters."), self, g)
  | _ :: _ =>
      let '(all_questions, g) := shuffle g all_questions in
      let selected_questions := slice_to num_questions all_questions in
      ((true, inr selected_questions), self, g)
  end.

(* ================================================================== *)
(** ** [QuizManager.submit_answer] *)
(* ================================================================== *)

Definition with_stats (self : QuizManager) (st : Stats) : QuizManager :=
  {| quizzes := quizzes self; history := history self; current_stats := st |}.

Definition submit_answer (self : QuizManager) (question : Question)
    (user_answer : option string) (question_number : Z)
    : bool * QuizManager :=
  let st := current_stats self in
  let is_correct := bool_decide (user_answer = Some (correct_answer question)) in
  (* Update statistics *)
  let total := S (total_questions st) in
  let correct_total :=
    if is_correct then S (correct_answers st) else correct_answers st in
  let missed :=
    if is_correct then missed_questions st
    else missed_questions st
           ++ [mkMissedQuestion question user_answer question_number] in
  (* Update chapter stats *)
  let chapter := chapter question in
  let cs := chapter_stats st in
  let cs := if dmem chapter cs then cs else dset chapter (mkChapterStats 0 0) cs in
  let entry := default (mkChapterStats 0 0) (dget chapter cs) in
  let entry := mkChapterStats (S (asked entry)) (correct entry) in
  let entry :=
    if is_correct then mkChapterStats (asked entry) (S (correct entry))
    else entry in
  let cs := dset chapter entry cs in
  (is_correct,
   with_stats self
     {| total_questions := total;
        correct_answers := correct_total;
        chapter_stats := cs;
        missed_questions := missed;
        class_name := class_name st;
        start_time := start_time st;
        selected_chapters := selected_chapters st |}).

(* ================================================================== *)
(** ** [QuizManager.save_quiz_session] *)
(* ================================================================== *)

(** [d[key]] on [current_stats] for a key that may be absent. *)
Definition stats_item {A} (key : string) (v : option A) : result A :=
  match v with
  | Some a => Return a
  | None => Raise (KeyError (repr_str key))
  end.

Definition save_quiz_session (self : QuizManager) (now : Z)
    : result (bool * QuizManager) :=
  let st := current_stats self in
  if decide (0 < total_questions st) then
    cn ← stats_item "class_name" (class_name st);
    ratio ← truediv (Z.of_nat (correct_answers st))
                    (Z.of_nat (total_questions st));
    let session_data :=
      {| sd_timestamp := now;
         sd_class_name := cn;
         sd_total_questions := total_questions st;
         sd_correct_answers := correct_answers st;
         sd_percentage := float_mul_int ratio 100;
         sd_missed_questions := length (missed_questions st);
         sd_chapter_stats := chapter_stats st;
         sd_selected_chapters := default [] (selected_chapters st) |} in
    Return (true,
            {| quizzes := quizzes self;
               history := history self ++ [session_data];
               current_stats := st |})
  else Return (false, self).

(* ================================================================== *)
(** ** The [csv] module: records, [DictReader] rows, readers *)
(* ================================================================== *)

(** The text of a CSV source is taken as the records [csv.reader] yields
    for it, header first; a blank line is the empty record.  Text on
    which the [csv] module itself raises is not modelled. *)
Definition csv_text : Type := list (list string).

(** A value of a [DictReader] row: [None] (a column the record is too
    short for), a string, or the list of surplus values kept under the
    key [None]. *)
Inductive cell : Type :=
  | CellNone
  | CellStr (s : string)
  | CellRest (extra : list string).

(** A row: keys are the field names, and [None] for the surplus values. *)
Definition row : Type := dict (option string) cell.

(** [d = dict(zip(fieldnames, record))], then the surplus values under
    [None] or [None] for the missing columns. *)
Definition dict_row (fieldnames record : list string) : row :=
  let d := foldl (λ d kv, dset (Some kv.1) (CellStr kv.2) d) []
                 (zip fieldnames record) in
  let lf := length fieldnames in
  let lr := length record in
  if decide (lf < lr) then dset None (CellRest (drop lf record)) d
  else if decide (lr < lf) then
    foldl (λ d key, dset (Some key) CellNone d) d (drop lr fieldnames)
  else d.

(** A [DictReader]: over text that can be read, or over a file object
    that has been closed, where reading raises [ValueError]. *)
Inductive reader : Type :=
  | DictReader (text : csv_text)
  | ClosedReader.

(** [reader.fieldnames]: the first record, [None] when there is none. *)
Definition fieldnames (r : reader) : result (option (list string)) :=
  match r with
  | DictReader [] => Return None
  | DictReader (header :: _) => Return (Some header)
  | ClosedReader => Raise (ValueError "I/O operation on closed file.")
  end.

(** The rows of [for row in reader]: the records after the header, the
    empty ones skipped. *)
Definition reader_rows (header : list string) (text : csv_text) : list row :=
  dict_row header <$> filter (λ record, record ≠ []) (tail text).

(** Truth value of a cell. *)
Definition truth (c : cell) : bool :=
  match c with
  | CellNone => false
  | CellStr s => negb (bool_decide (s = EmptyString))
  | CellRest extra => negb (bool_decide (extra = []))
  end.

(** [str(c)] *)
Definition str_of_cell (c : cell) : string :=
  match c with
  | CellNone => "None"
  | CellStr s => s
  | CellRest extra => repr_list extra
  end.

(** [row[key]] *)
Definition getitem (r : row) (key : string) : result cell :=
  match dget (Some key) r with
  | Some c => Return c
  | None => Raise (KeyError (repr_str key))
  end.

(** [c.strip()] *)
Definition cell_strip (c : cell) : result string :=
  match c with
  | CellStr s => Return (strip s)
  | CellNone =>
      Raise (AttributeError "'NoneType' object has no attribute 'strip'")
  | CellRest _ =>
      Raise (AttributeError "'list' object has no attribute 'strip'")
  end.

(* ================================================================== *)
(** ** [QuizManager.load_csv] *)
(* ================================================================== *)

(** An uploaded file: [file_content.getvalue().decode('utf-8')] raises or
    gives the text. *)
Record UploadedFile : Type := mkUploadedFile {
  decode_utf8 : result csv_text
}.

(** A regular, readable file on disk. *)
Record DiskFile : Type := mkDiskFile {
  getsize : nat;
  file_text : csv_text
}.

(** The files that exist, by name. *)
Definition filesystem : Type := string → option DiskFile.

Definition required_columns : list string :=
  ["Chapter"; "Question Text"; "Reasoning"; "Correct_Answer";
   "Alternative_1"; "Alternative_2"; "Alternative_3"].

(** [not row.get(field) or str(row[field]).strip() == ''] *)
Definition is_missing (r : row) (field : string) : bool :=
  match dget (Some field) r with
  | None => true
  | Some c => negb (truth c) || bool_decide (strip (str_of_cell c) = EmptyString)
  end.

(** The question dictionary of a validated row. *)
Definition make_question (r : row) : result Question :=
  ch ← getitem r "Chapter" ≫= cell_strip;
  qt ← getitem r "Question Text" ≫= cell_strip;
  re ← getitem r "Reasoning" ≫= cell_strip;
  ca ← getitem r "Correct_Answer" ≫= cell_strip;
  a1 ← getitem r "Alternative_1" ≫= cell_strip;
  a2 ← getitem r "Alternative_2" ≫= cell_strip;
  a3 ← getitem r "Alternative_3" ≫= cell_strip;
  Return (mkQuestion ch qt re ca [a1; a2; a3]).

(** The loop [for row in reader] of [load_csv]; [questions] is the list
    built so far.  ([line_number] is written and never read: left out.) *)
Fixpoint read_questions (rows : list row) (questions : list Question)
    : result (list Question) :=
  match rows with
  | [] => Return questions
  | r :: rows' =>
      if negb (existsb truth (dvalues r)) then read_questions rows' questions
      else
        let missing_fields := filter (λ field, is_missing r field) required_columns in
        match missing_fields with
        | _ :: _ => read_questions rows' questions
        | [] =>
            question ← make_question r;
            read_questions rows' (questions ++ [question])
        end
  end.

(** The loop organising the questions by chapter. *)
Definition organize (questions : list Question) : dict string (list Question) :=
  foldl (λ chapter_questions question,
           let chapter := chapter question in
           let chapter_questions :=
             if dmem chapter chapter_questions then chapter_questions
             else dset chapter [] chapter_questions in
           dset chapter
                (default [] (dget chapter chapter_questions) ++ [question])
                chapter_questions)
        [] questions.

(** The body of the [try] block, from the check of the columns on. *)
Definition load_from_reader (rd : reader)
    : result (outcome (dict string (list Question))) :=
  names ← fieldnames rd;
  match names with
  | None => Raise (TypeError "argument of type 'NoneType' is not iterable")
  | Some header =>
      if negb (forallb (λ col, bool_decide (col ∈ header)) required_columns) then
        Return (false,
                inl ("CSV missing required columns. Found: " +:+ repr_list header))
      else
        match rd with
        | ClosedReader => Raise (ValueError "I/O operation on closed file.")
        | DictReader text =>
            questions ← read_questions (reader_rows header text) [];
            match questions with
            | [] => Return (false, inl "No valid questions found in CSV file.")
            | _ :: _ => Return (true, inr (organize questions))
            end
        end
  end.

(** The body of the [try] block.  On the disk branch the reader is made
    inside [with open(...) as file:] and used after that block has
    closed the file. *)
Definition load_csv_try (fs : filesystem) (filename : string)
    (file_content : option UploadedFile)
    : result (outcome (dict string (list Question))) :=
  match file_content with
  | Some uploaded =>
      content ← decode_utf8 uploaded;
      load_from_reader (DictReader content)
  | None =>
      match fs filename with
      | None => Return (false, inl "File not found. Please check the filename.")
      | Some file =>
          if decide (getsize file = 0) then Return (false, inl "CSV file is empty.")
          else load_from_reader ClosedReader
      end
  end.

Definition load_csv (fs : filesystem) (filename : string)
    (file_content : option UploadedFile)
    : outcome (dict string (list Question)) :=
  match load_csv_try fs filename file_content with
  | Return r => r
  | Raise e => (false, inl ("Error loading CSV: " +:+ str_of_exception e))
  end.

(* ================================================================== *)
(** ** [display_quiz_question]: the answer options of a question *)
(* ================================================================== *)

(** The part of [st.session_state] the quiz uses.  [option_mapping] is
    [None] until the first question is displayed; [user_answers] has one
    slot for every question of [current_quiz] (so the quiz page sets it
    when the quiz starts). *)
Record SessionState : Type := mkSessionState {
  current_quiz : list Question;
  current_question : nat;
  user_answers : list (option string);
  option_mapping : option (dict nat (list string))
}.

(** One run of [display_quiz_question], up to the recording of the
    selected answer: the options shown ([None] when the function returns
    at once), the session state and the random source afterwards.
    [radio options] is the option the radio widget reports as selected. *)
Definition display_quiz_question (g : rng)
    (radio : list string → option string) (ss : SessionState)
    : option (list string) * SessionState * rng :=
  let questions := current_quiz ss in
  let current_idx := current_question ss in
  match questions !! current_idx with
  | None => (None, ss, g)
  | Some question =>
      (* Prepare options *)
      let options := alternatives question ++ [correct_answer question] in
      let '(options, g) := shuffle g options in
      (* Store the mapping for answer checking *)
      let mapping := default [] (option_mapping ss) in
      let mapping := dset current_idx options mapping in
      let user_answer := radio options in
      (Some options,
       {| current_quiz := questions;
          current_question := current_idx;
          user_answers := <[current_idx := user_answer]> (user_answers ss);
          option_mapping := Some mapping |},
       g)
  end.

(** The two navigation buttons. *)
Definition previous_question (ss : SessionState) : SessionState :=
  if decide (0 < current_question ss) then
    {| current_quiz := current_quiz ss;
       current_question := current_question ss - 1;
       user_answers := user_answers ss;
       option_mapping := option_mapping ss |}
  else ss.

Definition next_question (ss : SessionState) : SessionState :=
  if decide (current_question ss < length (current_quiz ss) - 1) then
    {| current_quiz := current_quiz ss;
       current_question := current_question ss + 1;
       user_answers := user_answers ss;
       option_mapping := option_mapping ss |}
  else ss.

(* ================================================================== *)
(** ** [QuizManager.get_questions_df] *)
(* ================================================================== *)

Definition IndexError (msg : string) : exception :=
  Exception "IndexError" msg.

(** [l[i]] on a list. *)
Definition list_item (l : list string) (i : nat) : result string :=
  match l !! i with
  | Some x => Return x
  | None => Raise (IndexError "list index out of range")
  end.

(** One dictionary of [all_questions]: a row of the table of questions. *)
Record QuestionRow : Type := mkQuestionRow {
  row_chapter : string;
  row_question : string;
  row_correct_answer : string;
  row_alternative_1 : string;
  row_alternative_2 : string;
  row_alternative_3 : string;
  row_reasoning : string
}.

Definition question_row (q : Question) : result QuestionRow :=
  a1 ← list_item (alternatives q) 0;
  a2 ← list_item (alternatives q) 1;
  a3 ← list_item (alternatives q) 2;
  Return {| row_chapter := chapter q;
            row_question := question_text q;
            row_correct_answer := correct_answer q;
            row_alternative_1 := a1;
            row_alternative_2 := a2;
            row_alternative_3 := a3;
            row_reasoning := reasoning q |}.

(** The inner loop [for q in questions]. *)
Fixpoint question_rows (questions : list Question) : result (list QuestionRow) :=
  match questions with
  | [] => Return []
  | q :: questions' =>
      r ← question_row q;
      rows ← question_rows questions';
      Return (r :: rows)
  end.

(** [get_questions_df]: the rows handed to [pd.DataFrame], chapter after
    chapter in the order of the dictionary. *)
Fixpoint get_questions_df (chapter_questions : dict string (list Question))
    : result (list QuestionRow) :=
  match chapter_questions with
  | [] => Return []
  | (_, questions) :: rest =>
      rows ← question_rows questions;
      more ← get_questions_df rest;
      Return (rows ++ more)
  end.

(* ================================================================== *)
(** ** [load_quiz_set]: the button that loads a class *)
(* ================================================================== *)

(** The handler of the button [Load Questions]: [load_csv] on the
    uploaded file and, on success, the result stored under the class
    name.  The second component is what the page then shows: the failure
    message, or the number of questions and of chapters of the success
    banner.  ([load_csv] is called with [None] for the file name, which
    the upload branch never reads; the model passes the empty name.) *)
Definition load_questions (self : QuizManager) (fs : filesystem)
    (class_name : string) (uploaded_file : UploadedFile)
    : QuizManager * (string + nat * nat) :=
  match load_csv fs EmptyString (Some uploaded_file) with
  | (true, inr result) =>
      ({| quizzes := dset class_name result (quizzes self);
          history := history self;
          current_stats := current_stats self |},
       inr (sum_list (length <$> dvalues result), length result))
  | (_, inl message) => (self, inl message)
  | (false, inr _) => (self, inl EmptyString)
  end.

(* ================================================================== *)
(** ** [take_quiz]: the number of questions on offer, and the start *)
(* ================================================================== *)

(** [sum(len(chapter_questions[ch]) for ch in selected_chapters)
     if selected_chapters else 0] *)
Fixpoint total_available (selected_chapters : list string)
    (chapter_questions : dict string (list Question)) : result nat :=
  match selected_chapters with
  | [] => Return 0
  | ch :: rest =>
      match dget ch chapter_questions with
      | None => Raise (KeyError (repr_str ch))
      | Some questions =>
          n ← total_available rest chapter_questions;
          Return (length questions + n)
      end
  end.

(** The two flags of the quiz page. *)
Record PageFlags : Type := mkPageFlags {
  quiz_started : bool;
  quiz_completed : bool
}.

(** The handler of the button [Start Quiz], entered when the button is
    pressed: nothing happens without a selected chapter; a successful
    [start_quiz] opens the session (position 0, one unanswered slot per
    question); a failed one shows its message ([Some message]). *)
Definition start_button (self : QuizManager) (now : Z) (g : rng)
    (ss : SessionState) (flags : PageFlags)
    (class_name : string) (selected_chapters : list string)
    (max_questions : Z) (chapter_questions : dict string (list Question))
    : QuizManager * SessionState * PageFlags * rng * option string :=
  match selected_chapters with
  | [] => (self, ss, flags, g, None)
  | _ :: _ =>
      let '(res, self, g) :=
        start_quiz self now g class_name selected_chapters max_questions
                   chapter_questions in
      match res with
      | (true, inr questions) =>
          (self,
           {| current_quiz := questions;
              current_question := 0;
              user_answers := replicate (length questions) None;
              option_mapping := option_mapping ss |},
           {| quiz_started := true; quiz_completed := false |},
           g, None)
      | (_, inl message) => (self, ss, flags, g, Some message)
      | (false, inr _) => (self, ss, flags, g, None)
      end
  end.

(* ================================================================== *)
(** ** [display_quiz_question]: the button [Submit Quiz] *)
(* ================================================================== *)

(** The loop [for i, (q, answer) in enumerate(zip(questions, user_answers))],
    entered at index [i]: an answer that is not [None] is scored under
    the position [i + 1]. *)
Fixpoint submit_loop (i : nat) (pairs : list (Question * option string))
    (self : QuizManager) : QuizManager :=
  match pairs with
  | [] => self
  | (q, answer) :: pairs' =>
      let self :=
        match answer with
        | Some a => (submit_answer self q (Some a) (Z.of_nat i + 1)).2
        | None => self
        end in
      submit_loop (S i) pairs' self
  end.

(** The handler of the button [Submit Quiz]: the answers are scored, the
    flags set, and the session saved.  The manager after the scoring and
    the flags are given beside the result of [save_quiz_session], which
    they do not depend on. *)
Definition submit_button (self : QuizManager) (now : Z) (ss : SessionState)
    : QuizManager * PageFlags * result (bool * QuizManager) :=
  let self := submit_loop 0 (zip (current_quiz ss) (user_answers ss)) self in
  (self,
   {| quiz_started := false; quiz_completed := true |},
   save_quiz_session self now).

(* ================================================================== *)
(** ** [export_history]: the rows of the missed questions *)
(* ================================================================== *)

(** One dictionary of [missed_data]. *)
Record MissedRow : Type := mkMissedRow {
  missed_chapter : string;
  missed_text : string;
  your_answer : option string;
  missed_correct_answer : string;
  missed_reasoning : string
}.

(** [missed_data] of [export_history]: the page returns at once while
    the history is empty, and builds the rows only when there are missed
    questions. *)
Definition missed_data (self : QuizManager) : option (list MissedRow) :=
  match history self with
  | [] => None
  | _ :: _ =>
      match missed_questions (current_stats self) with
      | [] => None
      | missed =>
          Some ((λ q, {| missed_chapter := chapter (missed_question q);
                         missed_text := question_text (missed_question q);
                         your_answer := user_answer q;
                         missed_correct_answer := correct_answer (missed_question q);
                         missed_reasoning := reasoning (missed_question q) |})
                  <$> missed)
      end
  end.

(* ================================================================== *)
(** * Vocabulary of the properties *)
(* ================================================================== *)

(** The calls of a session: question, answer, position. *)
Definition call : Type := Question * option string * Z.

Definition is_right (c : call) : bool :=
  bool_decide (c.1.2 = Some (correct_answer c.1.1)).

(** A sequence of [submit_answer] calls, in order. *)
Definition submit_all (self : QuizManager) (calls : list call) : QuizManager :=
  foldl (λ self c, (submit_answer self c.1.1 c.1.2 c.2).2) self calls.

(** Freshly reset statistics, as [__init__] and [start_quiz] leave them. *)
Definition fresh (st : Stats) : Prop :=
  total_questions st = 0 ∧ correct_answers st = 0
  ∧ chapter_stats st = [] ∧ missed_questions st = [].

(** Sum over the chapters of [asked]. *)
Definition sum_asked (cs : dict string ChapterStats) : nat :=
  sum_list (asked <$> dvalues cs).

(** The [asked] count of a chapter, 0 while it has no entry. *)
Definition asked_of (chapter : string) (cs : dict string ChapterStats) : nat :=
  match dget chapter cs with Some e => asked e | None => 0 end.

Definition stats_inv (st : Stats) : Prop :=
  total_questions st = correct_answers st + length (missed_questions st)
  ∧ sum_asked (chapter_stats st) = total_questions st.

(** How many of the calls carry the correct answer. *)
Definition count_right (calls : list call) : nat :=
  length (filter (λ c, is_right c = true) calls).

(** The transposition of two indices. *)
Definition transpose (i j k : nat) : nat :=
  if decide (k = j) then i else if decide (k = i) then j else k.

(** The questions of a chapter, none for a chapter the pool lacks. *)
Definition chapter_list (pool : dict string (list Question)) (c : string)
    : list Question :=
  default [] (dget c pool).

(** A position of the pool: a chapter and an index in its list. *)
Definition position : Type := string * nat.

Definition question_at (pool : dict string (list Question)) (p : position)
    : option Question :=
  dget p.1 pool ≫= λ qs, qs !! p.2.

(** The positions of the selected chapters, in the order of collection. *)
Definition collect_positions (chs : list string)
    (pool : dict string (list Question)) : list position :=
  chs ≫= λ c, (λ i, (c, i)) <$> seq 0 (length (chapter_list pool c)).

Definition no_questions_message : string :=
  "No questions available for selected chapters.".

(** The statistics as [start_quiz] resets them. *)
Definition reset_stats (now : Z) (cls : string) (chs : list string) : Stats :=
  {| total_questions := 0;
     correct_answers := 0;
     chapter_stats := [];
     missed_questions := [];
     class_name := Some cls;
     start_time := Some now;
     selected_chapters := Some chs |}.

(** [correct / total * 100] on binary64: the quotient of the two
    integers rounded once, then its product with [100.0] rounded. *)
Definition percentage_of (correct total : nat) : float :=
  float_mul_int (int_quotient (Z.of_nat correct) (Z.of_nat total)) 100.

(** The floats [0.0], [50.0] and [100.0], bit by bit. *)
Definition float_0 : float := S754_zero false.
Definition float_50 : float := S754_finite false 7036874417766400 (-47).
Definition float_100 : float := S754_finite false 7036874417766400 (-46).

(** The entry a started session with statistics [st] is saved as. *)
Definition session_data_of (st : Stats) (cn : string) (now : Z) : SessionData :=
  {| sd_timestamp := now;
     sd_class_name := cn;
     sd_total_questions := total_questions st;
     sd_correct_answers := correct_answers st;
     sd_percentage := percentage_of (correct_answers st) (total_questions st);
     sd_missed_questions := length (missed_questions st);
     sd_chapter_stats := chapter_stats st;
     sd_selected_chapters := default [] (selected_chapters st) |}.

(** The options of a question before they are shuffled. *)
Definition options_of (q : Question) : list string :=
  alternatives q ++ [correct_answer q].

(** A session of two questions, first displayed at position 0. *)
Definition two_question_session : SessionState :=
  {| current_quiz :=
       [mkQuestion "Ch1" "Q1?" "R1" "A" ["B"; "C"; "D"];
        mkQuestion "Ch2" "Q2?" "R2" "X" ["Y"; "Z"; "W"]];
     current_question := 0;
     user_answers := [None; None];
     option_mapping := None |}.

(** The radio widget with nothing chosen yet: the first option. *)
Definition first_option (options : list string) : option string := head options.

Definition chars (s : string) : list ascii := list_ascii_of_string s.

Definition all_space (l : list ascii) : Prop := Forall (λ c, isspace c = true) l.

(** Under a field name a row holds a string or [None], never a list. *)
Definition text_entry (kv : option string * cell) : Prop :=
  match kv with
  | (Some _, CellRest _) => False
  | _ => True
  end.

Definition row_ok (r : row) : Prop := Forall text_entry r.

(** A row is valid when none of the required fields is missing. *)
Definition row_valid (r : row) : bool :=
  forallb (λ field, negb (is_missing r field)) required_columns.

(** The value of a field as text (the empty text when there is none). *)
Definition raw_field (r : row) (field : string) : string :=
  match dget (Some field) r with
  | Some (CellStr s) => s
  | _ => EmptyString
  end.

(** The question of a row: every field trimmed. *)
Definition question_of_row (r : row) : Question :=
  {| chapter := strip (raw_field r "Chapter");
     question_text := strip (raw_field r "Question Text");
     reasoning := strip (raw_field r "Reasoning");
     correct_answer := strip (raw_field r "Correct_Answer");
     alternatives :=
       [strip (raw_field r "Alternative_1");
        strip (raw_field r "Alternative_2");
        strip (raw_field r "Alternative_3")] |}.

(** The chapters of a list in the order of their first occurrence. *)
Fixpoint first_seen (l : list string) : list string :=
  match l with
  | [] => []
  | c :: l' => c :: filter (λ c', c' ≠ c) (first_seen l')
  end.

(** The questions of chapter [c], in their order. *)
Definition of_chapter (c : string) (qs : list Question) : list Question :=
  filter (λ q, chapter q = c) qs.

(** How many questions a grouping holds. *)
Definition question_count (cq : dict string (list Question)) : nat :=
  sum_list (length <$> dvalues cq).

(** One round of the loop of [organize]. *)
Definition organize_step (cq : dict string (list Question)) (q : Question)
    : dict string (list Question) :=
  let cq1 := if dmem (chapter q) cq then cq else dset (chapter q) [] cq in
  dset (chapter q) (default [] (dget (chapter q) cq1) ++ [q]) cq1.

Definition has_required_columns (header : list string) : bool :=
  forallb (λ col, bool_decide (col ∈ header)) required_columns.

(** Uploaded content that decodes to the given text. *)
Definition upload (text : csv_text) : option UploadedFile :=
  Some (mkUploadedFile (Return text)).

Definition no_valid_questions_message : string :=
  "No valid questions found in CSV file.".

Definition missing_columns_message (header : list string) : string :=
  "CSV missing required columns. Found: " +:+ repr_list header.

Definition closed_file_message : string :=
  "Error loading CSV: I/O operation on closed file.".

(** The questions of the valid records, in order. *)
Definition valid_questions (header : list string) (records : list (list string))
    : list Question :=
  question_of_row
    <$> filter (λ r, row_valid r)
          (dict_row header <$> filter (λ record, record ≠ []) records).

(** Text that neither starts nor ends with white space. *)
Definition trimmed (s : string) : Prop :=
  (∀ c, head (chars s) = Some c → isspace c = false)
  ∧ (∀ c, last (chars s) = Some c → isspace c = false).

(** The seven texts of a question. *)
Definition fields (q : Question) : list string :=
  [chapter q; question_text q; reasoning q; correct_answer q] ++ alternatives q.

(** The CSV of the example: two chapters, values with spaces around. *)
Definition example_records : list (list string) :=
  [["Ch1"; " Q1? "; "R1"; "A"; "B"; "C"; "D"];
   ["Ch2"; "Q2?"; "R2 "; "X"; "Y"; "Z"; "W"];
   [" Ch1"; "Q3?"; "R3"; "A"; "B"; "C"; "D"]].

(** A disk holding one file, of the given size in bytes. *)
Definition disk_with (name : string) (size : nat) (text : csv_text) : filesystem :=
  λ n, if decide (n = name) then Some (mkDiskFile size text) else None.

(** A file with the seven columns, one valid record, and one record
    whose [Reasoning] is blank. *)
Definition one_valid_one_blank : csv_text :=
  [required_columns;
   ["Ch1"; "Q1?"; "R1"; "A"; "B"; "C"; "D"];
   ["Ch1"; "Q2?"; "  "; "A"; "B"; "C"; "D"]].

(** A file with the seven columns and no valid record. *)
Definition only_blank : csv_text :=
  [required_columns;
   ["Ch1"; "Q2?"; "  "; "A"; "B"; "C"; "D"];
   [EmptyString; EmptyString; EmptyString; EmptyString; EmptyString;
    EmptyString; EmptyString]].

(** A file whose header lacks five of the required columns. *)
Definition two_columns : csv_text :=
  [["Chapter"; "Question Text"]; ["Ch1"; "Q1?"]].

(** *** Vocabulary of the further properties *)

(** The calls of the chapter [c], and the right ones among them. *)
Definition calls_of_chapter (c : string) (calls : list call) : list call :=
  filter (λ call, chapter call.1.1 = c) calls.

(** The record [submit_answer] files for a wrong call. *)
Definition missed_record (c : call) : MissedQuestion :=
  mkMissedQuestion c.1.1 c.1.2 c.2.

(** A grouping as [load_csv] builds it: distinct chapters, none without
    a question, every question under its own chapter. *)
Definition grouped (cq : dict string (list Question)) : Prop :=
  NoDup (dkeys cq)
  ∧ Forall (λ kv, kv.2 ≠ [] ∧ Forall (λ q, chapter q = kv.1) kv.2) cq.

(** A question as [load_csv] builds it: three alternatives, and seven
    texts that are trimmed and not empty. *)
Definition well_formed (q : Question) : Prop :=
  length (alternatives q) = 3
  ∧ Forall (λ s, trimmed s ∧ s ≠ EmptyString) (fields q).

(** What a row holds under the seven required columns. *)
Definition row_view (r : row) : list (option cell) :=
  (λ field, dget (Some field) r) <$> required_columns.

(** What a record holds under the seven required columns of its header. *)
Definition required_view (header record : list string) : list (option cell) :=
  row_view (dict_row header record).

(** A call of one of the three methods of a session. *)
Inductive api_call : Type :=
  | CallStart (now : Z) (g : rng) (class_name : string)
      (selected_chapters : list string) (num_questions : Z)
      (chapter_questions : dict string (list Question))
  | CallSubmit (question : Question) (user_answer : option string)
      (question_number : Z)
  | CallSave (now : Z).

(** The manager after a call; a call that raises leaves it as it was. *)
Definition api_step (self : QuizManager) (c : api_call) : QuizManager :=
  match c with
  | CallStart now g cls chs k pool => (start_quiz self now g cls chs k pool).1.2
  | CallSubmit q a n => (submit_answer self q a n).2
  | CallSave now =>
      match save_quiz_session self now with
      | Return (_, self') => self'
      | Raise _ => self
      end
  end.

Definition api_run (self : QuizManager) (calls : list api_call) : QuizManager :=
  foldl api_step self calls.

(** The calls of [start_quiz]. *)
Definition is_start (c : api_call) : Prop :=
  match c with
  | CallStart _ _ _ _ _ _ => True
  | _ => False
  end.

(** A saved entry counts at least one question, and its questions are
    the correct ones plus the missed ones. *)
Definition entry_consistent (e : SessionData) : Prop :=
  0 < sd_total_questions e
  ∧ sd_total_questions e = sd_correct_answers e + sd_missed_questions e.

(** What a saved entry holds of its own, out of the reach of later
    calls: every field but the per-chapter counts, and the chapters of
    its copy of [chapter_stats].  (The counts are in dictionaries that
    the shallow copy shares with the accumulator.) *)
Definition entry_own (e : SessionData)
    : Z * string * nat * nat * float * nat * list string * list string :=
  (sd_timestamp e, sd_class_name e, sd_total_questions e, sd_correct_answers e,
   sd_percentage e, sd_missed_questions e, sd_selected_chapters e,
   dkeys (sd_chapter_stats e)).

(** What happens on the quiz page between the start and the submission:
    the question is displayed (the radio widget answering with [radio]),
    or one of the two navigation buttons is pressed. *)
Inductive page_event : Type :=
  | Display (radio : list string → option string)
  | PressPrevious
  | PressNext.

Definition page_step (st : SessionState * rng) (ev : page_event)
    : SessionState * rng :=
  match ev with
  | Display radio =>
      let r := display_quiz_question st.2 radio st.1 in (r.1.2, r.2)
  | PressPrevious => (previous_question st.1, st.2)
  | PressNext => (next_question st.1, st.2)
  end.

Definition page_run (st : SessionState * rng) (events : list page_event)
    : SessionState * rng :=
  foldl page_step st events.

(** A radio widget answers with one of the options it shows, or nothing. *)
Definition radio_honest (ev : page_event) : Prop :=
  match ev with
  | Display radio => ∀ options a, radio options = Some a → a ∈ options
  | _ => True
  end.

(** Every recorded answer is one of the options of its question. *)
Definition answers_from_options (ss : SessionState) : Prop :=
  ∀ i a, user_answers ss !! i = Some (Some a) →
         ∃ q, current_quiz ss !! i = Some q ∧ a ∈ options_of q.

(** The positions that carry an answer, as calls of [submit_answer]:
    position [i] (from 0) is scored under the number [i + 1]. *)
Definition answered (questions : list Question)
    (answers : list (option string)) : list call :=
  omap (λ p, match p.2.2 with
             | Some a => Some (p.2.1, Some a, Z.of_nat p.1 + 1)%Z
             | None => None
             end)
       (imap (λ i qa, (i, qa)) (zip questions answers)).

(** The [correct] count of a chapter, 0 while it has no entry. *)
Definition correct_of (chapter : string) (cs : dict string ChapterStats) : nat :=
  match dget chapter cs with Some e => correct e | None => 0 end.

(** The export row of a wrong call. *)
Definition export_row (c : call) : MissedRow :=
  {| missed_chapter := chapter c.1.1;
     missed_text := question_text c.1.1;
     your_answer := c.1.2;
     missed_correct_answer := correct_answer c.1.1;
     missed_reasoning := reasoning c.1.1 |}.

(** The CSV of the example with its columns in another order and two
    columns more. *)
Definition shuffled_header : list string :=
  ["Notes"; "Alternative_3"; "Alternative_2"; "Alternative_1";
   "Correct_Answer"; "Reasoning"; "Question Text"; "Page"; "Chapter"].

Definition shuffled_records : list (list string) :=
  [["n1"; "D"; "C"; "B"; "A"; "R1"; " Q1? "; "12"; "Ch1"];
   ["n2"; "W"; "Z"; "Y"; "X"; "R2 "; "Q2?"; "13"; "Ch2"; "surplus"];
   [EmptyString; "D"; "C"; "B"; "A"; "R3"; "Q3?"; EmptyString; " Ch1"]].

(* ================================================================== *)
(** * Properties *)
(* ================================================================== *)

(** ** Dictionaries *)

Section dict_facts.
Context {K V : Type} `{EqDecision K}.
Implicit Types (d : dict K V) (k : K) (v : V).

Lemma dget_dset_eq d k v : dget k (dset k v d) = Some v.
Proof.
  induction d as [|[k' v'] d IH]; simpl.
  - by rewrite decide_True.
  - destruct (decide (k = k')) as [->|Hne]; simpl.
    + by rewrite decide_True.
    + by rewrite decide_False.
Qed.

Lemma dget_dset_ne d k k' v : k ≠ k' → dget k' (dset k v d) = dget k' d.
Proof.
  intros Hne. induction d as [|[k0 v0] d IH]; simpl.
  - by rewrite decide_False.
  - destruct (decide (k = k0)) as [->|Hk]; simpl.
    + by rewrite !decide_False.
    + destruct (decide (k' = k0)); done.
Qed.

Lemma dget_None d k : dget k d = None ↔ k ∉ dkeys d.
Proof.
  unfold dkeys. induction d as [|[k' v'] d IH]; simpl.
  - split; [intros _; apply not_elem_of_nil | done].
  - rewrite not_elem_of_cons. destruct (decide (k = k')) as [->|Hne].
    + split; [done | intros [? _]; done].
    + rewrite IH. tauto.
Qed.

Lemma dget_Some_elem d k v : dget k d = Some v → (k, v) ∈ d.
Proof.
  induction d as [|[k' v'] d IH]; simpl; [done|].
  destruct (decide (k = k')) as [->|Hne].
  - intros [= ->]. left.
  - intros Hd. right. auto.
Qed.

Lemma dmem_true d k : dmem k d = true ↔ k ∈ dkeys d.
Proof.
  unfold dmem. destruct (dget k d) eqn:Hd.
  - split; [intros _ | done].
    destruct (decide (k ∈ dkeys d)) as [|Hn]; [done|].
    apply dget_None in Hn. congruence.
  - apply dget_None in Hd. split; [done | intros; done].
Qed.

(** Setting a key that is present keeps the keys and their order. *)
Lemma dkeys_dset_mem d k v : k ∈ dkeys d → dkeys (dset k v d) = dkeys d.
Proof.
  unfold dkeys. induction d as [|[k' v'] d IH]; simpl.
  - intros Hin. by apply elem_of_nil in Hin.
  - intros Hin. destruct (decide (k = k')) as [->|Hne]; simpl; [done|].
    f_equal. apply IH. apply elem_of_cons in Hin as [?|?]; done.
Qed.

(** Setting a new key adds it after the others. *)
Lemma dset_new d k v : k ∉ dkeys d → dset k v d = d ++ [(k, v)].
Proof.
  unfold dkeys. induction d as [|[k' v'] d IH]; simpl; [done|].
  intros [Hne Hnin]%not_elem_of_cons.
  rewrite decide_False by done. f_equal. by apply IH.
Qed.

Lemma dkeys_dset_new d k v : k ∉ dkeys d → dkeys (dset k v d) = dkeys d ++ [k].
Proof.
  intros Hk. rewrite dset_new by done. unfold dkeys. by rewrite fmap_app.
Qed.

(** A sum over the values, after [d[k] = v]. *)
Lemma sum_values_dset (f : V → nat) d k v :
  sum_list (f <$> dvalues (dset k v d)) + from_option f 0 (dget k d)
  = sum_list (f <$> dvalues d) + f v.
Proof.
  unfold dvalues. induction d as [|[k' v'] d IH]; csimpl; [lia|].
  destruct (decide (k = k')) as [->|Hne]; csimpl; lia.
Qed.

Lemma dkeys_NoDup_dset d k v : NoDup (dkeys d) → NoDup (dkeys (dset k v d)).
Proof.
  intros Hnd. destruct (decide (k ∈ dkeys d)) as [Hin|Hnin].
  - by rewrite dkeys_dset_mem.
  - rewrite dkeys_dset_new by done. apply NoDup_app. split_and!; [done| |].
    + intros x Hx ->%list_elem_of_singleton. done.
    + apply NoDup_singleton.
Qed.
End dict_facts.

(** ** Scoring: [submit_answer] *)

Lemma sum_asked_dset (cs : dict string ChapterStats) (c : string) (e : ChapterStats) :
  sum_asked (dset c e cs) + asked_of c cs = sum_asked cs + asked e.
Proof.
  unfold sum_asked, asked_of, dvalues.
  induction cs as [|[c' e'] cs IH]; csimpl; [lia|].
  destruct (decide (c = c')) as [->|Hne]; csimpl; lia.
Qed.

Lemma init_fresh : fresh (current_stats __init__).
Proof. by repeat split. Qed.

Lemma start_quiz_fresh self now g cls chs k pool :
  fresh (current_stats (start_quiz self now g cls chs k pool).1.2).
Proof.
  unfold start_quiz. destruct (collect_questions chs pool); simpl.
  - by repeat split.
  - destruct (shuffle g _); simpl. by repeat split.
Qed.

(** What one call does to each part of the statistics. *)
Lemma submit_answer_step self q a n :
  let r := bool_decide (a = Some (correct_answer q)) in
  let st := current_stats self in
  let st' := current_stats (submit_answer self q a n).2 in
  (submit_answer self q a n).1 = r
  ∧ total_questions st' = S (total_questions st)
  ∧ correct_answers st' = correct_answers st + (if r then 1 else 0)
  ∧ missed_questions st' =
      missed_questions st ++ (if r then [] else [mkMissedQuestion q a n])
  ∧ asked_of (chapter q) (chapter_stats st') =
      S (asked_of (chapter q) (chapter_stats st))
  ∧ sum_asked (chapter_stats st') = S (sum_asked (chapter_stats st))
  ∧ class_name st' = class_name st
  ∧ selected_chapters st' = selected_chapters st
  ∧ history (submit_answer self q a n).2 = history self.
Proof.
  simpl. set (r := bool_decide _). set (st := current_stats self).
  split_and!; try done.
  - destruct r; lia.
  - destruct r; by rewrite ?app_nil_r.
  - unfold asked_of. rewrite dget_dset_eq.
    unfold dmem. destruct (dget (chapter q) (chapter_stats st)) as [e|] eqn:He.
    + rewrite He. by destruct r.
    + rewrite dget_dset_eq. by destruct r.
  - set (cs := chapter_stats st).
    set (cs1 := if dmem (chapter q) cs then cs
                else dset (chapter q) (mkChapterStats 0 0) cs).
    assert (sum_asked cs1 = sum_asked cs
            ∧ asked_of (chapter q) cs1 = asked_of (chapter q) cs) as [Hs Ha].
    { unfold cs1, dmem, asked_of.
      destruct (dget (chapter q) cs) as [e|] eqn:He; [by rewrite He|].
      rewrite dget_dset_eq. split; [|done].
      pose proof (sum_asked_dset cs (chapter q) (mkChapterStats 0 0)) as Hd.
      unfold asked_of in Hd. rewrite He in Hd. simpl in Hd. lia. }
    match goal with |- sum_asked (dset _ ?e _) = _ =>
      pose proof (sum_asked_dset cs1 (chapter q) e) as Hd;
      assert (asked e = S (asked_of (chapter q) cs1)) as Hae
    end.
    { unfold asked_of. destruct (dget (chapter q) cs1); by destruct r. }
    fold cs1. lia.
Qed.

Lemma count_right_le calls : count_right calls ≤ length calls.
Proof. apply length_filter. Qed.

Lemma submit_all_cons self q a n calls :
  submit_all self ((q, a, n) :: calls)
  = submit_all (submit_answer self q a n).2 calls.
Proof. reflexivity. Qed.

Lemma count_right_cons q a n calls :
  count_right ((q, a, n) :: calls)
  = (if bool_decide (a = Some (correct_answer q)) then 1 else 0)
    + count_right calls.
Proof.
  unfold count_right.
  destruct (bool_decide (a = Some (correct_answer q))) eqn:Hr.
  - by rewrite filter_cons_True by exact Hr.
  - rewrite filter_cons_False; [done|].
    unfold is_right. simpl. by rewrite Hr.
Qed.

Lemma submit_all_counts calls : ∀ self,
  let st := current_stats self in
  let st' := current_stats (submit_all self calls) in
  total_questions st' = total_questions st + length calls
  ∧ correct_answers st' = correct_answers st + count_right calls
  ∧ length (missed_questions st') =
      length (missed_questions st) + (length calls - count_right calls)
  ∧ sum_asked (chapter_stats st') = sum_asked (chapter_stats st) + length calls.
Proof.
  induction calls as [|[[q a] n] calls IH]; intros self.
  - cbn. unfold count_right. cbn. lia.
  - cbv zeta. rewrite submit_all_cons, count_right_cons.
    destruct (IH (submit_answer self q a n).2) as (Ht & Hc & Hm & Hs).
    destruct (submit_answer_step self q a n) as (_ & Ht1 & Hc1 & Hm1 & _ & Hs1 & _).
    rewrite Ht, Hc, Hm, Hs, Ht1, Hc1, Hm1, Hs1, length_app.
    pose proof (count_right_le calls) as Hle.
    destruct (bool_decide (a = Some (correct_answer q))); cbn [length]; lia.
Qed.

(** C2. For every question and every answer that is a string,
    [submit_answer] returns [True] exactly when the answer is the very
    string [correct_answer] (equality of strings, nothing normalised); a
    wrong answer appends exactly one record (question, answer, position)
    to [missed_questions], a right answer appends nothing. *)
Theorem submit_answer_exact_match (self : QuizManager) (q : Question)
    (a : string) (n : Z) :
  let res := submit_answer self q (Some a) n in
  (res.1 = true ↔ a = correct_answer q)
  ∧ missed_questions (current_stats res.2) =
      missed_questions (current_stats self)
        ++ (if res.1 then [] else [mkMissedQuestion q (Some a) n]).
Proof.
  intros res.
  destruct (submit_answer_step self q (Some a) n) as (Hr & _ & _ & Hm & _).
  subst res. rewrite Hm, Hr. split; [|done].
  rewrite bool_decide_eq_true. split; [by intros [= ->] | by intros ->].
Qed.

(** The comparison is sensitive to case and to white space. *)
Example submit_answer_case_and_space :
  let q := mkQuestion "Ch1" "Q1?" "R1" "Paris" ["Rome"; "Oslo"; "Bern"] in
  (submit_answer __init__ q (Some "Paris") 1).1 = true
  ∧ (submit_answer __init__ q (Some "paris") 1).1 = false
  ∧ (submit_answer __init__ q (Some "Paris ") 1).1 = false.
Proof. by vm_compute. Qed.

(** C10. [submit_answer] does not reject the answer [None]: for every
    question it returns [False], adds one to [total_questions] and to
    the [asked] count of the question's chapter, and appends one record
    with [user_answer = None] to [missed_questions]; no error is raised. *)
Theorem submit_answer_none_scored_wrong (self : QuizManager) (q : Question)
    (n : Z) :
  let res := submit_answer self q None n in
  let st := current_stats self in
  let st' := current_stats res.2 in
  res.1 = false
  ∧ total_questions st' = S (total_questions st)
  ∧ correct_answers st' = correct_answers st
  ∧ asked_of (chapter q) (chapter_stats st') =
      S (asked_of (chapter q) (chapter_stats st))
  ∧ missed_questions st' = missed_questions st ++ [mkMissedQuestion q None n].
Proof.
  intros res st st'.
  destruct (submit_answer_step self q None n) as (Hr & Ht & Hc & Hm & Ha & _).
  rewrite bool_decide_eq_false_2 in Hr, Hc, Hm by done.
  subst res st st'. rewrite Hr, Ht, Hc, Hm, Ha. split_and!; [done..|lia|done|done].
Qed.

(** C3. From freshly reset statistics, after any sequence of [k] calls of
    [submit_answer] of which [m] are correct: [total_questions = k],
    [correct_answers = m], [len(missed_questions) = k - m], and the
    [asked] counts of the chapters sum to [k]; and every call of
    [submit_answer] preserves the invariant
    [total_questions = correct_answers + len(missed_questions)] with
    [sum of asked = total_questions]. *)
Theorem submit_answer_accounting :
  (∀ (self : QuizManager) (calls : list call),
     fresh (current_stats self) →
     let st := current_stats (submit_all self calls) in
     total_questions st = length calls
     ∧ correct_answers st = count_right calls
     ∧ length (missed_questions st) = length calls - count_right calls
     ∧ sum_asked (chapter_stats st) = total_questions st)
  ∧ (∀ (self : QuizManager) (q : Question) (a : option string) (n : Z),
       stats_inv (current_stats self) →
       stats_inv (current_stats (submit_answer self q a n).2)).
Proof.
  split.
  - intros self calls (Ht & Hc & Hcs & Hm).
    destruct (submit_all_counts calls self) as (Ht' & Hc' & Hm' & Hs').
    simpl. rewrite Ht', Hc', Hm', Hs', Ht, Hc, Hcs, Hm. simpl.
    unfold sum_asked. simpl. lia.
  - intros self q a n [Hi1 Hi2].
    destruct (submit_answer_step self q a n) as (_ & Ht & Hc & Hm & _ & Hs & _).
    unfold stats_inv. rewrite Ht, Hc, Hm, Hs, length_app.
    destruct (bool_decide _); simpl; lia.
Qed.

Lemma submit_answer_accounting_witness :
  let q := mkQuestion "Ch1" "Q1?" "R1" "A" ["B"; "C"; "D"] in
  let calls : list call := [(q, Some "A", 1%Z); (q, Some "B", 2%Z); (q, None, 3%Z)] in
  fresh (current_stats __init__)
  ∧ total_questions (current_stats (submit_all __init__ calls)) = 3
  ∧ correct_answers (current_stats (submit_all __init__ calls)) = 1
  ∧ length (missed_questions (current_stats (submit_all __init__ calls))) = 2
  ∧ stats_inv (current_stats (submit_answer __init__ q (Some "A") 1).2).
Proof.
  intros q calls.
  destruct submit_answer_accounting as [H1 H2].
  split; [exact init_fresh|].
  destruct (H1 __init__ calls init_fresh) as (Ht & Hc & Hm & _).
  split; [exact Ht|]. split; [exact Hc|]. split; [exact Hm|].
  apply H2. split; reflexivity.
Defined.

(** ** [random.shuffle] permutes, and commutes with a map *)

Section shuffle_facts.
Context {A : Type}.
Implicit Types (x : list A) (g : rng).

Lemma swap_length i j x : length (swap i j x) = length x.
Proof.
  unfold swap. destruct (x !! i), (x !! j); try done.
  by rewrite !length_insert.
Qed.

Lemma transpose_inj i j : Inj (=) (=) (transpose i j).
Proof. intros k1 k2. unfold transpose. repeat case_decide; congruence. Qed.

Lemma swap_lookup i j x xi xj k :
  x !! i = Some xi → x !! j = Some xj →
  swap i j x !! k = x !! transpose i j k.
Proof.
  intros Hi Hj. unfold swap, transpose. rewrite Hi, Hj.
  pose proof (lookup_lt_Some _ _ _ Hi). pose proof (lookup_lt_Some _ _ _ Hj).
  destruct (decide (k = j)) as [->|Hkj].
  - by rewrite list_lookup_insert_eq by (by rewrite length_insert).
  - rewrite list_lookup_insert_ne by done.
    destruct (decide (k = i)) as [->|Hki].
    + by rewrite list_lookup_insert_eq.
    + by rewrite list_lookup_insert_ne.
Qed.

Lemma swap_Permutation i j x : swap i j x ≡ₚ x.
Proof.
  destruct (x !! i) as [xi|] eqn:Hi; [|by unfold swap; rewrite Hi].
  destruct (x !! j) as [xj|] eqn:Hj; [|by unfold swap; rewrite Hi, Hj].
  apply Permutation_inj. split; [apply swap_length|].
  exists (transpose i j). split; [apply transpose_inj|].
  intros k. by eapply swap_lookup.
Qed.

Lemma shuffle_from_Permutation i : ∀ g x, (shuffle_from i g x).1 ≡ₚ x.
Proof.
  induction i as [|i IH]; intros g x; simpl; [done|].
  destruct (randbelow (S (S i)) g) as [j g'].
  rewrite IH. apply swap_Permutation.
Qed.

Lemma shuffle_Permutation g x : (shuffle g x).1 ≡ₚ x.
Proof. apply shuffle_from_Permutation. Qed.

Lemma shuffle_length g x : length (shuffle g x).1 = length x.
Proof. by rewrite shuffle_Permutation. Qed.
End shuffle_facts.

Section shuffle_fmap.
Context {A B : Type} (f : A → B).

Lemma swap_fmap i j (x : list A) : swap i j (f <$> x) = f <$> swap i j x.
Proof.
  unfold swap. rewrite !list_lookup_fmap.
  destruct (x !! i), (x !! j); simpl; try done.
  by rewrite !list_fmap_insert.
Qed.

Lemma shuffle_from_fmap i : ∀ g (x : list A),
  shuffle_from i g (f <$> x)
  = ((f <$> (shuffle_from i g x).1), (shuffle_from i g x).2).
Proof.
  induction i as [|i IH]; intros g x; simpl; [done|].
  destruct (randbelow (S (S i)) g) as [j g'].
  by rewrite swap_fmap, IH.
Qed.

Lemma shuffle_fmap g (x : list A) :
  (shuffle g (f <$> x)).1 = f <$> (shuffle g x).1.
Proof. unfold shuffle. by rewrite length_fmap, shuffle_from_fmap. Qed.
End shuffle_fmap.

(** ** Starting a quiz: [start_quiz] *)

Lemma collect_questions_bind chs pool :
  collect_questions chs pool = chs ≫= chapter_list pool.
Proof.
  unfold collect_questions.
  enough (∀ acc, foldl (λ all_questions chapter,
                          match dget chapter pool with
                          | Some qs => all_questions ++ qs
                          | None => all_questions
                          end) acc chs
                 = acc ++ (chs ≫= chapter_list pool)) as H by apply (H []).
  induction chs as [|c chs IH]; intros acc; csimpl.
  - by rewrite app_nil_r.
  - rewrite IH. unfold chapter_list at 2.
    destruct (dget c pool); simpl; by rewrite ?app_assoc.
Qed.

Lemma chapter_positions pool c :
  question_at pool <$> ((λ i, (c, i)) <$> seq 0 (length (chapter_list pool c)))
  = Some <$> chapter_list pool c.
Proof.
  rewrite <-list_fmap_compose. unfold question_at, chapter_list, compose. simpl.
  destruct (dget c pool) as [qs|]; simpl; [|done].
  apply list_eq. intros i. rewrite !list_lookup_fmap.
  destruct (decide (i < length qs)) as [Hlt|Hge].
  - rewrite lookup_seq_lt by done. simpl.
    destruct (lookup_lt_is_Some_2 qs i Hlt) as [q Hq]. by rewrite Hq.
  - rewrite lookup_seq_ge by lia. by rewrite lookup_ge_None_2 by lia.
Qed.

Lemma collect_positions_questions chs pool :
  question_at pool <$> collect_positions chs pool
  = Some <$> collect_questions chs pool.
Proof.
  rewrite collect_questions_bind. unfold collect_positions.
  induction chs as [|c chs IH]; csimpl; [done|].
  by rewrite !fmap_app, IH, chapter_positions.
Qed.

Lemma collect_positions_NoDup chs pool :
  NoDup chs → NoDup (collect_positions chs pool).
Proof.
  intros Hnd. apply NoDup_bind; [| |done].
  - intros c1 c2 p _ _ (i1 & -> & _)%list_elem_of_fmap (i2 & [= ->] & _)%list_elem_of_fmap.
    done.
  - intros c _. apply NoDup_fmap_2; [|apply NoDup_seq].
    by intros i1 i2 [= ->].
Qed.

Lemma collect_positions_chapter chs pool p :
  p ∈ collect_positions chs pool → p.1 ∈ chs.
Proof.
  intros (c & (i & -> & _)%list_elem_of_fmap & Hc)%list_elem_of_bind. done.
Qed.

Lemma question_at_chapter pool p q :
  question_at pool p = Some q → ∃ qs, dget p.1 pool = Some qs ∧ q ∈ qs.
Proof.
  unfold question_at. destruct (dget p.1 pool) as [qs|]; simpl; [|done].
  intros Hq. exists qs. split; [done|]. by eapply list_elem_of_lookup_2.
Qed.

(** [start_quiz], result by result. *)
Lemma start_quiz_unfold self now g cls chs k pool :
  start_quiz self now g cls chs k pool =
    let self' := with_stats self (reset_stats now cls chs) in
    match collect_questions chs pool with
    | [] => ((false, inl no_questions_message), self', g)
    | _ :: _ =>
        ((true, inr (slice_to k (shuffle g (collect_questions chs pool)).1)),
         self', (shuffle g (collect_questions chs pool)).2)
    end.
Proof.
  unfold start_quiz. destruct (collect_questions chs pool) as [|q qs]; [done|].
  by destruct (shuffle g (q :: qs)).
Qed.

Lemma slice_to_take {A} (k : Z) (x : list A) :
  (0 ≤ k)%Z → slice_to k x = take (Z.to_nat k) x.
Proof. intros Hk. unfold slice_to. by rewrite decide_True. Qed.

Lemma take_shuffle_positions g n chs pool :
  Some <$> take n (shuffle g (collect_questions chs pool)).1
  = question_at pool <$> take n (shuffle g (collect_positions chs pool)).1.
Proof.
  by rewrite !fmap_take, <-!shuffle_fmap, collect_positions_questions.
Qed.

Lemma take_shuffle_NoDup {A} g n (x : list A) :
  NoDup x → NoDup (take n (shuffle g x).1).
Proof.
  intros Hnd. eapply sublist_NoDup; [|apply sublist_take].
  by rewrite shuffle_Permutation.
Qed.

Lemma take_shuffle_elem {A} g n (x : list A) a :
  a ∈ take n (shuffle g x).1 → a ∈ x.
Proof.
  intros Ha%(subseteq_take n). by rewrite shuffle_Permutation in Ha.
Qed.

(** C1. For every question pool, every set of selected chapters and every
    count [k] with [1 <= k <= size of the union of their questions],
    [start_quiz] succeeds and returns exactly [k] questions, each from a
    chapter of the selected set, drawn without replacement: the result
    lists the questions at [k] pairwise distinct positions
    (chapter, index) of the selected chapters, so it repeats no question
    unless the pool itself does.  When the union is empty the call fails
    with the message that no questions are available. *)
Theorem start_quiz_draws_without_replacement (self : QuizManager) (now : Z)
    (g : rng) (cls : string) (chs : list string) (k : Z)
    (pool : dict string (list Question)) :
  NoDup chs →
  let union := collect_questions chs pool in
  let res := (start_quiz self now g cls chs k pool).1.1 in
  (union = [] → res = (false, inl no_questions_message))
  ∧ ((1 ≤ k ≤ Z.of_nat (length union))%Z →
     ∃ (selected : list Question) (positions : list position),
       res = (true, inr selected)
       ∧ length selected = Z.to_nat k
       ∧ (∀ q, q ∈ selected →
            ∃ c qs, c ∈ chs ∧ dget c pool = Some qs ∧ q ∈ qs)
       ∧ NoDup positions
       ∧ Forall (λ p, p.1 ∈ chs) positions
       ∧ Forall2 (λ q p, question_at pool p = Some q) selected positions
       ∧ (NoDup union → NoDup selected)).
Proof.
  intros Hset union res. subst res. rewrite start_quiz_unfold. fold union.
  split.
  - by intros ->.
  - intros Hk. destruct union as [|q0 qs0] eqn:Hu; [simpl in Hk; lia|].
    rewrite <-Hu in *. cbn [fst snd].
    rewrite slice_to_take by lia. set (n := Z.to_nat k).
    pose proof (take_shuffle_positions g n chs pool) as Hpos. fold union in Hpos.
    set (selected := take n (shuffle g union).1) in *.
    set (positions := take n (shuffle g (collect_positions chs pool)).1) in *.
    assert (Forall2 (λ q p, question_at pool p = Some q) selected positions) as HF.
    { apply list_eq_Forall2 in Hpos. rewrite Forall2_fmap in Hpos.
      eapply Forall2_impl; [exact Hpos|]. by intros q p ->. }
    assert (Forall (λ p, p.1 ∈ chs) positions) as Hch.
    { apply Forall_forall. intros p Hp%take_shuffle_elem.
      by eapply collect_positions_chapter. }
    exists selected, positions. split_and!; try done.
    + unfold selected. rewrite length_take, shuffle_length. lia.
    + intros q (i & Hi)%list_elem_of_lookup_1.
      destruct (Forall2_lookup_l _ _ _ _ _ HF Hi) as (p & Hp & Hq).
      destruct (question_at_chapter _ _ _ Hq) as (qs & Hqs & Hin).
      exists p.1, qs. split_and!; [|done..].
      eapply (proj1 (Forall_forall _ _) Hch). by eapply list_elem_of_lookup_2.
    + by apply take_shuffle_NoDup, collect_positions_NoDup.
    + apply take_shuffle_NoDup.
Qed.

Lemma start_quiz_draws_without_replacement_witness :
  let q1 := mkQuestion "Ch1" "Q1?" "R1" "A" ["B"; "C"; "D"] in
  let q2 := mkQuestion "Ch2" "Q2?" "R2" "X" ["Y"; "Z"; "W"] in
  let pool : dict string (list Question) := [("Ch1", [q1]); ("Ch2", [q2])] in
  let chs := ["Ch1"; "Ch2"] in
  NoDup chs
  ∧ (1 ≤ 2 ≤ Z.of_nat (length (collect_questions chs pool)))%Z
  ∧ ∃ (selected : list Question) (positions : list position),
      (start_quiz __init__ 0 [0] "Biology" chs 2 pool).1.1 = (true, inr selected)
      ∧ length selected = Z.to_nat 2
      ∧ (∀ q, q ∈ selected →
           ∃ c qs, c ∈ chs ∧ dget c pool = Some qs ∧ q ∈ qs)
      ∧ NoDup positions
      ∧ Forall (λ p, p.1 ∈ chs) positions
      ∧ Forall2 (λ q p, question_at pool p = Some q) selected positions
      ∧ (NoDup (collect_questions chs pool) → NoDup selected).
Proof.
  intros q1 q2 pool chs.
  assert (NoDup chs) as Hset by compute_done.
  assert (1 ≤ 2 ≤ Z.of_nat (length (collect_questions chs pool)))%Z
    as Hk by (vm_compute; split; discriminate).
  split; [exact Hset|]. split; [exact Hk|].
  exact (proj2 (start_quiz_draws_without_replacement
                  __init__ 0 [0] "Biology" chs 2 pool Hset) Hk).
Defined.

(** The run of the example: both questions, in the shuffled order. *)
Example start_quiz_two_chapters :
  let q1 := mkQuestion "Ch1" "Q1?" "R1" "A" ["B"; "C"; "D"] in
  let q2 := mkQuestion "Ch2" "Q2?" "R2" "X" ["Y"; "Z"; "W"] in
  (start_quiz __init__ 0 [0] "Biology" ["Ch1"; "Ch2"] 2
     [("Ch1", [q1]); ("Ch2", [q2])]).1.1
  = (true, inr [q2; q1]).
Proof. reflexivity. Qed.

(** A pool that repeats a question (a CSV with the same row twice) gives
    it back twice: the two copies sit at distinct positions. *)
Example start_quiz_repeated_row :
  let q := mkQuestion "Ch1" "Q1?" "R1" "A" ["B"; "C"; "D"] in
  (start_quiz __init__ 0 [] "Biology" ["Ch1"] 2 [("Ch1", [q; q])]).1.1
  = (true, inr [q; q]).
Proof. reflexivity. Qed.

(** C8 as it holds.  [start_quiz] resets the statistics before it looks
    for questions: whenever it fails, the accumulator is the reset one
    (0 questions, 0 correct, no chapter statistics, no missed
    questions, with the class, time and chapters of the attempt),
    whatever it was before; [quizzes], [history] and the random source
    are unchanged. *)
Theorem start_quiz_failure_resets_stats (self : QuizManager) (now : Z)
    (g : rng) (cls : string) (chs : list string) (k : Z)
    (pool : dict string (list Question)) :
  let r := start_quiz self now g cls chs k pool in
  r.1.1.1 = false →
  r.1.1 = (false, inl no_questions_message)
  ∧ collect_questions chs pool = []
  ∧ current_stats r.1.2 = reset_stats now cls chs
  ∧ total_questions (current_stats r.1.2) = 0
  ∧ correct_answers (current_stats r.1.2) = 0
  ∧ chapter_stats (current_stats r.1.2) = []
  ∧ missed_questions (current_stats r.1.2) = []
  ∧ quizzes r.1.2 = quizzes self
  ∧ history r.1.2 = history self
  ∧ r.2 = g.
Proof.
  intros r. subst r. rewrite start_quiz_unfold.
  destruct (collect_questions chs pool); simpl; [|done].
  intros _. by split_and!.
Qed.

Lemma start_quiz_failure_resets_stats_witness :
  let q := mkQuestion "Ch1" "Q1?" "R1" "A" ["B"; "C"; "D"] in
  let self := (submit_answer __init__ q (Some "B") 1).2 in
  let r := start_quiz self 7 [] "Biology" ["Ch2"] 1 [("Ch1", [q])] in
  r.1.1.1 = false ∧ current_stats r.1.2 = reset_stats 7 "Biology" ["Ch2"].
Proof.
  intros q self.
  assert ((start_quiz self 7 [] "Biology" ["Ch2"] 1 [("Ch1", [q])]).1.1.1 = false)
    as Hfail by reflexivity.
  split; [exact Hfail|].
  exact (proj1 (proj2 (proj2
    (start_quiz_failure_resets_stats self 7 [] "Biology" ["Ch2"] 1
       [("Ch1", [q])] Hfail)))).
Defined.

(** C8 as stated fails: a failed [start_quiz] does not leave the
    accumulator as it was.  After one wrong answer the accumulator has
    one question and one missed question; a start that fails (no
    question in the selected chapter) leaves it with none. *)
Lemma start_quiz_failure_changes_stats :
  let q := mkQuestion "Ch1" "Q1?" "R1" "A" ["B"; "C"; "D"] in
  let self := (submit_answer __init__ q (Some "B") 1).2 in
  let r := start_quiz self 7 [] "Biology" ["Ch2"] 1 [("Ch1", [q])] in
  r.1.1 = (false, inl no_questions_message)
  ∧ total_questions (current_stats self) = 1
  ∧ total_questions (current_stats r.1.2) = 0
  ∧ length (missed_questions (current_stats self)) = 1
  ∧ length (missed_questions (current_stats r.1.2)) = 0
  ∧ chapter_stats (current_stats self) ≠ chapter_stats (current_stats r.1.2)
  ∧ current_stats r.1.2 ≠ current_stats self.
Proof. by vm_compute. Qed.

(** ** Saving a session: [save_quiz_session] *)

(** *** The quotient of the percentage *)

(** The number of binary digits of a mantissa. *)
Lemma digits2_pos_size p : digits2_pos p = Pos.size p.
Proof. induction p as [p IH|p IH|]; simpl; by rewrite ?IH. Qed.

Lemma Zdigits2_log2 m : (0 < m)%Z → Zdigits2 m = (Z.log2 m + 1)%Z.
Proof.
  destruct m as [|p|p]; [lia| |lia]. intros _. simpl.
  rewrite digits2_pos_size. destruct p; simpl; lia.
Qed.

Lemma Zdigits2_mono a b : (0 < a ≤ b)%Z → (Zdigits2 a ≤ Zdigits2 b)%Z.
Proof.
  intros H. rewrite !Zdigits2_log2 by lia.
  pose proof (Z.log2_le_mono a b). lia.
Qed.

Lemma Zdigits2_bound m k : (0 ≤ k)%Z → (0 ≤ m < 2 ^ k)%Z → (Zdigits2 m ≤ k)%Z.
Proof.
  intros Hk Hm. destruct (decide (m = 0%Z)) as [->|Hz]; [done|].
  rewrite Zdigits2_log2 by lia.
  pose proof (proj1 (Z.log2_lt_pow2 m k ltac:(lia))). lia.
Qed.

Lemma shr_1_m mrs : (0 ≤ shr_m mrs)%Z → (0 ≤ shr_m (shr_1 mrs) ≤ shr_m mrs)%Z.
Proof. destruct mrs as [[|[p|p|]|p] r s]; simpl; lia. Qed.

Lemma iter_pos_shr_1 p : ∀ mrs,
  (0 ≤ shr_m mrs)%Z → (0 ≤ shr_m (SpecFloat.iter_pos shr_1 p mrs) ≤ shr_m mrs)%Z.
Proof.
  induction p as [p IH|p IH|]; intros mrs Hm; simpl.
  - pose proof (shr_1_m mrs Hm). pose proof (IH (shr_1 mrs) ltac:(lia)).
    pose proof (IH (SpecFloat.iter_pos shr_1 p (shr_1 mrs)) ltac:(lia)). lia.
  - pose proof (IH mrs Hm). pose proof (IH (SpecFloat.iter_pos shr_1 p mrs) ltac:(lia)). lia.
  - by apply shr_1_m.
Qed.

Lemma shr_record_of_loc_m m l : shr_m (shr_record_of_loc m l) = m.
Proof. by destruct l as [|[]]. Qed.

Lemma shr_fexp_bound m e l :
  (0 ≤ m)%Z →
  (0 ≤ shr_m (shr_fexp 53 1024 m e l).1 ≤ m)%Z
  ∧ (shr_fexp 53 1024 m e l).2 = Z.max e (fexp 53 1024 (Zdigits2 m + e)).
Proof.
  intros Hm. unfold shr_fexp, shr.
  destruct (fexp 53 1024 (Zdigits2 m + e) - e)%Z as [|p|p] eqn:Hn; simpl.
  - rewrite shr_record_of_loc_m. lia.
  - split; [|lia]. pose proof (iter_pos_shr_1 p (shr_record_of_loc m l)).
    rewrite shr_record_of_loc_m in *. lia.
  - rewrite shr_record_of_loc_m. lia.
Qed.

Lemma round_nearest_even_bound m l :
  (0 ≤ m)%Z → (0 ≤ round_nearest_even m l ≤ m + 1)%Z.
Proof. intros Hm. destruct l as [|[]]; simpl; try lia. destruct (Z.even m); lia. Qed.

Lemma fexp_eq x : fexp 53 1024 x = Z.max (x - 53) (-1074).
Proof. reflexivity. Qed.

Lemma binary_round_aux_finite sx m e l k :
  (0 ≤ k)%Z → (0 ≤ m < 2 ^ k)%Z →
  (e ≤ -52)%Z → (k + e ≤ 1)%Z → (k ≤ 1075)%Z →
  ∀ s, binary_round_aux 53 1024 sx m e l ≠ S754_infinity s.
Proof.
  intros Hk Hm He Hke Hk' s. unfold binary_round_aux.
  destruct (shr_fexp_bound m e l) as [Hm1 He1]; [lia|].
  destruct (shr_fexp 53 1024 m e l) as [mrs1 e1]. simpl in Hm1, He1.
  set (m1 := round_nearest_even (shr_m mrs1) (loc_of_shr_record mrs1)).
  pose proof (round_nearest_even_bound (shr_m mrs1) (loc_of_shr_record mrs1)
                ltac:(lia)) as Hr. fold m1 in Hr.
  destruct (shr_fexp_bound m1 e1 loc_Exact) as [Hm2 He2]; [lia|].
  destruct (shr_fexp 53 1024 m1 e1 loc_Exact) as [mrs2 e2]. simpl in Hm2, He2.
  destruct (shr_m mrs2) as [|p|p]; [done| |done].
  assert (e2 ≤ 1024 - 53)%Z as Hle; [|by rewrite (proj2 (Z.leb_le _ _) Hle)].
  pose proof (Zdigits2_bound m k Hk Hm) as Hd.
  assert (e1 ≤ -52)%Z as He1'.
  { rewrite He1, fexp_eq. lia. }
  assert (m1 < 2 ^ (k + 1))%Z as Hm1'.
  { rewrite Z.pow_add_r by lia. lia. }
  pose proof (Zdigits2_bound m1 (k + 1) ltac:(lia) ltac:(lia)) as Hd1.
  rewrite He2, fexp_eq. lia.
Qed.

Lemma SFdiv_le_finite (a b : Z) :
  (0 ≤ a ≤ b)%Z → (0 < b)%Z →
  ∀ s, int_quotient a b ≠ S754_infinity s.
Proof.
  intros Hab Hb s.
  destruct b as [|pb|pb]; [lia| |lia].
  destruct a as [|pa|pa]; [done| |lia].
  unfold int_quotient. cbn [float_exact SFdiv]. unfold SFdiv_core_binary.
  set (d1 := Zdigits2 (Z.pos pa)). set (d2 := Zdigits2 (Z.pos pb)).
  assert (0 < d1 ≤ d2)%Z as Hd.
  { split; [done|]. apply Zdigits2_mono. lia. }
  rewrite !Z.add_0_r, Z.sub_0_r.
  set (e' := Z.min (fexp 53 1024 (d1 - d2)) 0).
  assert (-1074 ≤ e' ≤ -53)%Z as He'.
  { unfold e'. rewrite fexp_eq. lia. }
  replace (0 - e')%Z with (- e')%Z by lia.
  destruct (- e')%Z as [|ps|ps] eqn:Hs; [lia| |lia].
  rewrite Z.shiftl_mul_pow2 by lia.
  pose proof (Z.div_eucl_eq (Z.pos pa * 2 ^ Z.pos ps) (Z.pos pb) ltac:(lia)) as Heq.
  pose proof (Z.mod_pos_bound (Z.pos pa * 2 ^ Z.pos ps) (Z.pos pb) ltac:(lia)) as Hmod.
  unfold Z.modulo in Hmod.
  destruct (Z.div_eucl (Z.pos pa * 2 ^ Z.pos ps) (Z.pos pb)) as [q r].
  assert (0 < 2 ^ Z.pos ps)%Z as Hpow by (apply Z.pow_pos_nonneg; lia).
  apply (binary_round_aux_finite _ q e' _ (Z.pos ps + 1)); try lia.
  rewrite Z.pow_add_r by lia. split; nia.
Qed.

(** A quotient of at most one is a float: no [OverflowError]. *)
Lemma truediv_le (a b : Z) :
  (0 ≤ a ≤ b)%Z → (0 < b)%Z → truediv a b = Return (int_quotient a b).
Proof.
  intros Hab Hb. unfold truediv. rewrite decide_False by lia.
  pose proof (SFdiv_le_finite a b Hab Hb) as Hfin.
  destruct (int_quotient a b) as [| s | |]; try done. by destruct (Hfin s).
Qed.

(** Every answer right is exactly [100.0], none right exactly [0.0]. *)
Lemma div_eucl_div_mod a b : Z.div_eucl a b = ((a / b)%Z, (a mod b)%Z).
Proof. unfold Z.div, Z.modulo. by destruct (Z.div_eucl a b). Qed.

Lemma int_quotient_same (a : Z) :
  (0 < a)%Z → int_quotient a a = S754_finite false 4503599627370496 (-52).
Proof.
  intros Ha. destruct a as [|p|p]; [lia| |lia].
  unfold int_quotient. cbn [float_exact SFdiv]. unfold SFdiv_core_binary.
  rewrite !Z.add_0_r, !Z.sub_diag.
  change (Z.min (fexp 53 1024 0) 0) with (-53)%Z.
  change (0 - -53)%Z with 53%Z. cbv iota beta.
  rewrite Z.shiftl_mul_pow2 by lia. rewrite div_eucl_div_mod.
  rewrite (Z.mul_comm (Z.pos p)), Z.div_mul, Z.mod_mul by lia.
  assert (new_location (Z.pos p) 0 = loc_Exact) as ->.
  { unfold new_location, new_location_even, new_location_odd.
    by destruct (Z.even (Z.pos p)). }
  by vm_compute.
Qed.

Lemma percentage_of_all_right (n : nat) : 0 < n → percentage_of n n = float_100.
Proof.
  intros Hn. unfold percentage_of. rewrite int_quotient_same by lia. by vm_compute.
Qed.

Lemma percentage_of_none_right (n : nat) : 0 < n → percentage_of 0 n = float_0.
Proof.
  intros Hn. unfold percentage_of, int_quotient.
  destruct (Z.of_nat n) as [|p|p] eqn:Hp; [lia| |lia]. by vm_compute.
Qed.

(** *** The three outcomes *)

(** Nothing answered: nothing saved, whatever else the statistics hold;
    no division takes place. *)
Lemma save_quiz_session_empty self now :
  total_questions (current_stats self) = 0 →
  save_quiz_session self now = Return (false, self).
Proof. intros H0. unfold save_quiz_session. rewrite H0. done. Qed.

(** Something answered, and a class name in the statistics, as after
    [start_quiz]: one entry. *)
Lemma save_quiz_session_started self now cn :
  0 < total_questions (current_stats self) →
  correct_answers (current_stats self) ≤ total_questions (current_stats self) →
  class_name (current_stats self) = Some cn →
  save_quiz_session self now =
    Return (true,
            {| quizzes := quizzes self;
               history := history self ++ [session_data_of (current_stats self) cn now];
               current_stats := current_stats self |}).
Proof.
  intros Hpos Hle Hcn. unfold save_quiz_session.
  rewrite decide_True by done. rewrite Hcn. simpl.
  rewrite truediv_le by lia. done.
Qed.

(** Something answered but no quiz ever started: [current_stats] has no
    key [class_name] and the lookup raises, before the division. *)
Lemma save_quiz_session_not_started self now :
  0 < total_questions (current_stats self) →
  class_name (current_stats self) = None →
  save_quiz_session self now = Raise (KeyError "'class_name'").
Proof.
  intros Hpos Hcn. unfold save_quiz_session.
  rewrite decide_True by done. by rewrite Hcn.
Qed.

(** With something answered the result is never [False]: it is [True]
    with one entry appended, or an exception other than
    [ZeroDivisionError]. *)
Lemma save_quiz_session_answered self now :
  0 < total_questions (current_stats self) →
  (∃ entry, save_quiz_session self now
            = Return (true,
                      {| quizzes := quizzes self;
                         history := history self ++ [entry];
                         current_stats := current_stats self |}))
  ∨ (∃ e, save_quiz_session self now = Raise e ∧ e ≠ ZeroDivisionError).
Proof.
  intros Hpos. unfold save_quiz_session. rewrite decide_True by done.
  destruct (class_name (current_stats self)) as [cn|]; simpl;
    [|right; by eexists].
  unfold truediv. rewrite decide_False by lia.
  destruct (int_quotient _ _); simpl;
    first [left; by eexists | right; by eexists].
Qed.

(** [False] is returned exactly when nothing was answered. *)
Lemma save_quiz_session_false_iff self now :
  (∃ self', save_quiz_session self now = Return (false, self'))
  ↔ total_questions (current_stats self) = 0.
Proof.
  split.
  - intros [self' Hs].
    destruct (decide (0 < total_questions (current_stats self))) as [Hpos|]; [|lia].
    destruct (save_quiz_session_answered self now Hpos) as [[entry He]|(e & He & _)];
      by rewrite He in Hs.
  - intros H0. exists self. by apply save_quiz_session_empty.
Qed.

(** The division is never reached with a zero divisor. *)
Lemma save_quiz_session_no_zero_division self now :
  save_quiz_session self now ≠ Raise ZeroDivisionError.
Proof.
  destruct (decide (0 < total_questions (current_stats self))) as [Hpos|Hz].
  - destruct (save_quiz_session_answered self now Hpos) as [[entry He]|(e & He & Hne)];
      rewrite He; [done|]. by intros [= ->].
  - by rewrite save_quiz_session_empty by lia.
Qed.

(** Every session opened by [start_quiz] keeps its class name. *)
Lemma submit_all_class_name calls : ∀ self,
  class_name (current_stats (submit_all self calls))
  = class_name (current_stats self).
Proof.
  induction calls as [|[[q a] n] calls IH]; intros self; [done|].
  rewrite submit_all_cons, IH.
  by destruct (submit_answer_step self q a n) as (_ & _ & _ & _ & _ & _ & Hcn & _).
Qed.

Lemma submit_all_history calls : ∀ self,
  history (submit_all self calls) = history self.
Proof.
  induction calls as [|[[q a] n] calls IH]; intros self; [done|].
  rewrite submit_all_cons, IH.
  by destruct (submit_answer_step self q a n) as (_ & _ & _ & _ & _ & _ & _ & _ & Hh).
Qed.

Lemma submit_all_selected_chapters calls : ∀ self,
  selected_chapters (current_stats (submit_all self calls))
  = selected_chapters (current_stats self).
Proof.
  induction calls as [|[[q a] n] calls IH]; intros self; [done|].
  rewrite submit_all_cons, IH.
  by destruct (submit_answer_step self q a n)
    as (_ & _ & _ & _ & _ & _ & _ & Hsc & _).
Qed.

(** A session: the manager after [start_quiz] (it succeeds or not)
    and any calls of [submit_answer].  Its accumulator carries the class
    and the chapters of the start. *)
Lemma session_class_and_chapters self0 now0 g cls chs k pool calls :
  let st := current_stats
              (submit_all (start_quiz self0 now0 g cls chs k pool).1.2 calls) in
  class_name st = Some cls ∧ selected_chapters st = Some chs.
Proof.
  cbv zeta. rewrite submit_all_class_name, submit_all_selected_chapters.
  rewrite start_quiz_unfold. by destruct (collect_questions chs pool).
Qed.

(** *** The managers the three methods build *)

(** The counters of every manager built from a new one: no more right
    answers than answers. *)
Lemma api_step_counts self c :
  correct_answers (current_stats self) ≤ total_questions (current_stats self) →
  correct_answers (current_stats (api_step self c))
  ≤ total_questions (current_stats (api_step self c)).
Proof.
  intros Hle. destruct c as [now g cls chs k pool|q a n|now]; cbn [api_step].
  - rewrite start_quiz_unfold. destruct (collect_questions chs pool); simpl; lia.
  - destruct (submit_answer_step self q a n) as (_ & Ht & Hc & _).
    rewrite Ht, Hc. destruct (bool_decide _); lia.
  - destruct (decide (0 < total_questions (current_stats self))) as [Hpos|Hz].
    + destruct (save_quiz_session_answered self now Hpos)
        as [[entry He]|(e & He & _)]; by rewrite He.
    + by rewrite save_quiz_session_empty by lia.
Qed.

(** The class name is in the statistics from the first [start_quiz] on. *)
Lemma api_step_class_name self c :
  class_name (current_stats (api_step self c)) = None
  ↔ class_name (current_stats self) = None ∧ ¬ is_start c.
Proof.
  destruct c as [now g cls chs k pool|q a n|now]; cbn [api_step is_start].
  - rewrite start_quiz_unfold.
    destruct (collect_questions chs pool); simpl; (split; [intros [=]|tauto]).
  - destruct (submit_answer_step self q a n) as (_ & _ & _ & _ & _ & _ & Hcn & _).
    rewrite Hcn. tauto.
  - destruct (decide (0 < total_questions (current_stats self))) as [Hpos|Hz].
    + destruct (save_quiz_session_answered self now Hpos)
        as [[entry He]|(e & He & _)]; rewrite He; simpl; tauto.
    + rewrite save_quiz_session_empty by lia. tauto.
Qed.

Lemma api_run_reached calls : ∀ self,
  correct_answers (current_stats self) ≤ total_questions (current_stats self) →
  correct_answers (current_stats (api_run self calls))
  ≤ total_questions (current_stats (api_run self calls))
  ∧ (class_name (current_stats (api_run self calls)) = None
     ↔ class_name (current_stats self) = None ∧ Forall (λ c, ¬ is_start c) calls).
Proof.
  induction calls as [|c calls IH]; intros self Hle.
  - simpl. split; [done|]. split; [by intros ?; split|by intros [? _]].
  - destruct (IH (api_step self c) (api_step_counts self c Hle)) as [Hle' Hcn].
    split; [done|]. simpl. rewrite Hcn, api_step_class_name, Forall_cons.
    tauto.
Qed.

(** C4. [save_quiz_session] returns [False], and then appends nothing,
    exactly when [total_questions = 0]; the division for the percentage
    is never made by zero.  With [total_questions > 0] the outcome
    depends on the class name, which [start_quiz] puts into the
    statistics and [__init__] does not: with a class name (and no more
    right answers than answers) it returns [True] and appends exactly
    one entry, whose [total_questions], [correct_answers],
    [chapter_stats] and [selected_chapters] are those of the accumulator
    and whose percentage is [correct_answers / total_questions * 100];
    without one the lookup of ['class_name'] raises [KeyError] and
    nothing is appended.  Every session, that is the accumulator after
    [start_quiz] and any calls of [submit_answer], is of the first kind;
    and of the managers built from a new one by the three methods,
    exactly those that never ran [start_quiz] are of the second. *)
Theorem save_quiz_session_contract :
  (∀ (self : QuizManager) (now : Z),
     (∃ self', save_quiz_session self now = Return (false, self'))
     ↔ total_questions (current_stats self) = 0)
  ∧ (∀ (self : QuizManager) (now : Z),
       total_questions (current_stats self) = 0 →
       save_quiz_session self now = Return (false, self))
  ∧ (∀ (self : QuizManager) (now : Z),
       save_quiz_session self now ≠ Raise ZeroDivisionError)
  ∧ (∀ (self : QuizManager) (now : Z) (cn : string),
       let st := current_stats self in
       0 < total_questions st →
       correct_answers st ≤ total_questions st →
       class_name st = Some cn →
       ∃ entry,
         save_quiz_session self now =
           Return (true,
                   {| quizzes := quizzes self;
                      history := history self ++ [entry];
                      current_stats := st |})
         ∧ sd_total_questions entry = total_questions st
         ∧ sd_correct_answers entry = correct_answers st
         ∧ sd_chapter_stats entry = chapter_stats st
         ∧ sd_selected_chapters entry = default [] (selected_chapters st)
         ∧ sd_missed_questions entry = length (missed_questions st)
         ∧ sd_class_name entry = cn
         ∧ sd_timestamp entry = now
         ∧ sd_percentage entry
           = percentage_of (correct_answers st) (total_questions st))
  ∧ (∀ (self : QuizManager) (now : Z),
       0 < total_questions (current_stats self) →
       class_name (current_stats self) = None →
       save_quiz_session self now = Raise (KeyError "'class_name'"))
  ∧ (∀ (self0 : QuizManager) (now0 : Z) (g : rng) (cls : string)
       (chs : list string) (k : Z) (pool : dict string (list Question))
       (calls : list call),
       let st := current_stats
                   (submit_all (start_quiz self0 now0 g cls chs k pool).1.2 calls) in
       correct_answers st ≤ total_questions st
       ∧ class_name st = Some cls
       ∧ selected_chapters st = Some chs)
  ∧ (∀ calls : list api_call,
       let st := current_stats (api_run __init__ calls) in
       correct_answers st ≤ total_questions st
       ∧ (class_name st = None ↔ Forall (λ c, ¬ is_start c) calls))
  ∧ (∀ n : nat, 0 < n →
       percentage_of n n = float_100 ∧ percentage_of 0 n = float_0).
Proof.
  split_and!.
  - apply save_quiz_session_false_iff.
  - apply save_quiz_session_empty.
  - apply save_quiz_session_no_zero_division.
  - intros self now cn st Hpos Hle Hcn.
    exists (session_data_of st cn now). split_and!; try done.
    by apply save_quiz_session_started.
  - apply save_quiz_session_not_started.
  - intros self0 now0 g cls chs k pool calls st.
    destruct (session_class_and_chapters self0 now0 g cls chs k pool calls)
      as [Hcn Hsel].
    split_and!; [|done|done]. subst st.
    destruct (submit_all_counts calls (start_quiz self0 now0 g cls chs k pool).1.2)
      as (Ht & Hc & _).
    destruct (start_quiz_fresh self0 now0 g cls chs k pool) as (Ht0 & Hc0 & _).
    rewrite Ht, Hc, Ht0, Hc0. pose proof (count_right_le calls). lia.
  - intros calls st. subst st.
    destruct (api_run_reached calls __init__) as [Hle Hcn]; [done|].
    split; [done|]. rewrite Hcn. split; [by intros [_ ?]|by intros ?; split].
  - intros n Hn. split;
      [by apply percentage_of_all_right|by apply percentage_of_none_right].
Qed.

Lemma save_quiz_session_contract_witness :
  let q := mkQuestion "Ch1" "Q1?" "R1" "A" ["B"; "C"; "D"] in
  let pool : dict string (list Question) := [("Ch1", [q])] in
  let self :=
    submit_all (start_quiz __init__ 5 [] "Biology" ["Ch1"] 1 pool).1.2
               [(q, Some "A", 1%Z); (q, Some "B", 2%Z)] in
  let unstarted := (submit_answer __init__ q (Some "A") 1).2 in
  save_quiz_session __init__ 9 = Return (false, __init__)
  ∧ 0 < total_questions (current_stats self)
  ∧ correct_answers (current_stats self) ≤ total_questions (current_stats self)
  ∧ class_name (current_stats self) = Some "Biology"
  ∧ (∃ entry,
      save_quiz_session self 9 =
        Return (true,
                {| quizzes := quizzes self;
                   history := history self ++ [entry];
                   current_stats := current_stats self |})
      ∧ sd_total_questions entry = 2
      ∧ sd_correct_answers entry = 1
      ∧ sd_percentage entry = float_50)
  ∧ 0 < total_questions (current_stats unstarted)
  ∧ class_name (current_stats unstarted) = None
  ∧ save_quiz_session unstarted 9 = Raise (KeyError "'class_name'").
Proof.
  intros q pool self unstarted.
  destruct save_quiz_session_contract as (_ & H0 & _ & Hpos & Hnone & _).
  split; [apply H0; reflexivity|].
  assert (0 < total_questions (current_stats self)) as Hlt by (vm_compute; lia).
  assert (correct_answers (current_stats self) ≤ total_questions (current_stats self))
    as Hle by (vm_compute; lia).
  assert (class_name (current_stats self) = Some "Biology") as Hcn by reflexivity.
  assert (0 < total_questions (current_stats unstarted)) as Hlt' by (vm_compute; lia).
  assert (class_name (current_stats unstarted) = None) as Hcn' by reflexivity.
  split; [exact Hlt|]. split; [exact Hle|]. split; [exact Hcn|].
  split; [|split; [exact Hlt'|split; [exact Hcn'|exact (Hnone unstarted 9%Z Hlt' Hcn')]]].
  destruct (Hpos self 9%Z "Biology" Hlt Hle Hcn)
    as (entry & Hsave & Ht & Hc & _ & _ & _ & _ & _ & Hp).
  exists entry. split; [exact Hsave|].
  split; [exact Ht|]. split; [exact Hc|]. rewrite Hp. by vm_compute.
Defined.

(** C4 as stated fails.  A manager that never ran [start_quiz] has no
    [class_name] in [current_stats]; once an answer is scored,
    [total_questions] is 1 and [save_quiz_session] does not return
    [True]: it raises [KeyError] (the neighbouring key
    [selected_chapters] is read with a default), and the history stays
    empty. *)
Example save_quiz_session_before_start_raises :
  let q := mkQuestion "Ch1" "Q1?" "R1" "A" ["B"; "C"; "D"] in
  let self := (submit_answer __init__ q (Some "A") 1).2 in
  total_questions (current_stats self) = 1
  ∧ save_quiz_session self 0 = Raise (KeyError "'class_name'")
  ∧ history self = [].
Proof. by vm_compute. Qed.

(** The same answers after [start_quiz]: saved with every answer right. *)
Example save_quiz_session_after_start :
  let q := mkQuestion "Ch1" "Q1?" "R1" "A" ["B"; "C"; "D"] in
  let started := (start_quiz __init__ 5 [] "Biology" ["Ch1"] 1 [("Ch1", [q])]).1.2 in
  let self := (submit_answer started q (Some "A") 1).2 in
  ∃ self', save_quiz_session self 9 = Return (true, self')
    ∧ history self' =
        [{| sd_timestamp := 9;
            sd_class_name := "Biology";
            sd_total_questions := 1;
            sd_correct_answers := 1;
            sd_percentage := float_100;
            sd_missed_questions := 0;
            sd_chapter_stats := [("Ch1", mkChapterStats 1 1)];
            sd_selected_chapters := ["Ch1"] |}].
Proof. eexists. split; by vm_compute. Qed.

(** The quotient is rounded once, also beyond [2^53], where converting
    the two integers first would give another float; and a quotient
    beyond the floats raises. *)
Example truediv_large :
  truediv (3 * (2 ^ 54 + 2) + 1) (2 ^ 54 + 2)
  = Return (S754_finite false 6755399441055744 (-51))
  ∧ SFdiv 53 1024 (float_of_int (3 * (2 ^ 54 + 2) + 1)) (float_of_int (2 ^ 54 + 2))
    = S754_finite false 6755399441055745 (-51)
  ∧ truediv (2 ^ 1024) 1
    = Raise (OverflowError "integer division result too large for a float")
  ∧ truediv 1 0 = Raise ZeroDivisionError.
Proof. by vm_compute. Qed.

(** ** The answer options of [display_quiz_question] *)

(** [display_quiz_question], result by result. *)
Lemma display_quiz_question_unfold g radio ss q :
  current_quiz ss !! current_question ss = Some q →
  display_quiz_question g radio ss =
    let shuffled := shuffle g (options_of q) in
    (Some shuffled.1,
     {| current_quiz := current_quiz ss;
        current_question := current_question ss;
        user_answers :=
          <[current_question ss := radio shuffled.1]> (user_answers ss);
        option_mapping :=
          Some (dset (current_question ss) shuffled.1
                     (default [] (option_mapping ss))) |},
     shuffled.2).
Proof.
  intros Hq. unfold display_quiz_question, options_of. rewrite Hq.
  by destruct (shuffle g (alternatives q ++ [correct_answer q])).
Qed.

(** What every display does.  The options of the question are shuffled
    afresh: the order shown is the shuffle of the alternatives plus the
    correct answer by the draws of that display, whatever order is
    stored for the position; it is a permutation of these options; and
    it is then stored for the position in place of the earlier one, the
    orders of the other positions being kept.  The stored order is
    written and never read. *)
Lemma display_quiz_question_reshuffles (g : rng)
    (radio : list string → option string) (ss : SessionState) (q : Question) :
  current_quiz ss !! current_question ss = Some q →
  let r := display_quiz_question g radio ss in
  let order := (shuffle g (options_of q)).1 in
  r.1.1 = Some order
  ∧ order ≡ₚ options_of q
  ∧ ∃ mapping,
      option_mapping r.1.2 = Some mapping
      ∧ dget (current_question ss) mapping = Some order
      ∧ ∀ j, j ≠ current_question ss →
          dget j mapping = dget j (default [] (option_mapping ss)).
Proof.
  intros Hq r order. subst r. rewrite (display_quiz_question_unfold _ _ _ q Hq).
  cbn [fst snd option_mapping]. split_and!; [done|apply shuffle_Permutation|].
  eexists. split_and!; [done|apply dget_dset_eq|].
  intros j Hj. by apply dget_dset_ne.
Qed.

Lemma display_quiz_question_reshuffles_witness :
  two_question_session.(current_quiz) !! two_question_session.(current_question)
    = Some (mkQuestion "Ch1" "Q1?" "R1" "A" ["B"; "C"; "D"])
  ∧ (display_quiz_question [0; 0; 0] first_option two_question_session).1.1
    = Some (shuffle [0; 0; 0] ["B"; "C"; "D"; "A"]).1.
Proof.
  assert (two_question_session.(current_quiz) !! two_question_session.(current_question)
          = Some (mkQuestion "Ch1" "Q1?" "R1" "A" ["B"; "C"; "D"])) as Hq
    by reflexivity.
  split; [exact Hq|].
  exact (proj1 (display_quiz_question_reshuffles
                  [0; 0; 0] first_option two_question_session _ Hq)).
Defined.

(** C9.  The order of a position is not kept, although it is stored.
    Position 0 is displayed and its order stored in [option_mapping];
    the user goes to position 1 and back; the second display of
    position 0 does not take the stored order: it shows another order
    than the first, and replaces the one stored for position 0. *)
Theorem display_quiz_question_order_not_cached :
  let g0 := [0; 0; 0; 0; 0; 0; 3; 2; 1] in
  let d1 := display_quiz_question g0 first_option two_question_session in
  let d2 := display_quiz_question d1.2 first_option (next_question d1.1.2) in
  let d3 := display_quiz_question d2.2 first_option (previous_question d2.1.2) in
  current_question d1.1.2 = 0 ∧ current_question d2.1.2 = 1
  ∧ current_question d3.1.2 = 0
  ∧ d1.1.1 = Some ["C"; "D"; "A"; "B"]
  ∧ d3.1.1 = Some ["B"; "C"; "D"; "A"]
  ∧ (option_mapping d2.1.2 ≫= dget 0) = Some ["C"; "D"; "A"; "B"]
  ∧ (option_mapping d3.1.2 ≫= dget 0) = Some ["B"; "C"; "D"; "A"]
  ∧ d1.1.1 ≠ d3.1.1.
Proof. by vm_compute. Qed.

(** ** Trimming: [str.strip] *)

Lemma lstrip_chars_spec l :
  ∃ a, l = a ++ lstrip_chars l ∧ all_space a
       ∧ ∀ c, head (lstrip_chars l) = Some c → isspace c = false.
Proof.
  induction l as [|c l (a & Hl & Ha & Hh)]; simpl.
  - exists []. by split_and!; [|constructor|].
  - destruct (isspace c) eqn:Hc.
    + exists (c :: a). split_and!; [by rewrite Hl at 1|by constructor|done].
    + exists []. split_and!; [done|constructor|]. by intros ? [= <-].
Qed.

Lemma rstrip_chars_spec l :
  ∃ b, l = rstrip_chars l ++ b ∧ all_space b
       ∧ ∀ c, last (rstrip_chars l) = Some c → isspace c = false.
Proof.
  unfold rstrip_chars.
  destruct (lstrip_chars_spec (reverse l)) as (a & Hl & Ha & Hh).
  exists (reverse a). split_and!.
  - by rewrite <-reverse_app, <-Hl, reverse_involutive.
  - unfold all_space. by rewrite Forall_reverse.
  - intros c. rewrite last_reverse. apply Hh.
Qed.

(** [strip] removes a run of white space at each end, and nothing else:
    what is left neither starts nor ends with white space. *)
Lemma strip_spec s :
  ∃ a b, chars s = a ++ chars (strip s) ++ b
         ∧ all_space a ∧ all_space b
         ∧ (∀ c, head (chars (strip s)) = Some c → isspace c = false)
         ∧ (∀ c, last (chars (strip s)) = Some c → isspace c = false).
Proof.
  unfold strip, chars. rewrite list_ascii_of_string_of_list_ascii.
  destruct (lstrip_chars_spec (list_ascii_of_string s)) as (a & Hl & Ha & Hh).
  destruct (rstrip_chars_spec (lstrip_chars (list_ascii_of_string s)))
    as (b & Hr & Hb & Ht).
  exists a, b. split_and!; [by rewrite <-Hr|done..| |done].
  intros c Hc. apply Hh. rewrite Hr.
  by destruct (rstrip_chars (lstrip_chars (list_ascii_of_string s))).
Qed.

Lemma chars_inj s1 s2 : chars s1 = chars s2 → s1 = s2.
Proof.
  unfold chars. intros H.
  by rewrite <-(string_of_list_ascii_of_string s1), H,
     string_of_list_ascii_of_string.
Qed.

(** A string is blank when it holds white space only. *)
Lemma strip_empty_iff s : strip s = EmptyString ↔ all_space (chars s).
Proof.
  destruct (strip_spec s) as (a & b & Hs & Ha & Hb & Hh & Ht). split.
  - intros He. rewrite He in Hs. rewrite Hs. simpl.
    unfold all_space in *. by apply Forall_app.
  - intros Hall. apply chars_inj. simpl.
    destruct (chars (strip s)) as [|c r] eqn:Hc; [done|].
    rewrite Hs in Hall. unfold all_space in Hall.
    apply Forall_app in Hall as [_ Hall]. apply Forall_app in Hall as [Hall _].
    apply Forall_cons in Hall as [Hsp _]. specialize (Hh c eq_refl). congruence.
Qed.

(** ** Rows of a [DictReader] *)

Lemma dset_Forall {K V} `{EqDecision K} (P : K * V → Prop) (d : dict K V) k v :
  Forall P d → P (k, v) → Forall P (dset k v d).
Proof.
  intros Hd Hkv. induction d as [|[k' v'] d IH]; simpl.
  - by constructor.
  - apply Forall_cons in Hd as [Hh Ht].
    destruct (decide (k = k')); constructor; auto.
Qed.

Lemma foldl_dset_Forall {K V X} `{EqDecision K} (P : K * V → Prop)
    (key : X → K) (val : X → V) (xs : list X) : ∀ d : dict K V,
  Forall P d → (∀ x, P (key x, val x)) →
  Forall P (foldl (λ d x, dset (key x) (val x) d) d xs).
Proof.
  induction xs as [|x xs IH]; intros d Hd HP; simpl; [done|].
  apply IH; [|done]. by apply dset_Forall.
Qed.

Lemma dict_row_ok header record : row_ok (dict_row header record).
Proof.
  unfold dict_row, row_ok.
  assert (Forall text_entry
            (foldl (λ d kv, dset (Some kv.1) (CellStr kv.2) d) []
                   (zip header record))) as Hd.
  { apply (foldl_dset_Forall text_entry (λ kv, Some kv.1) (λ kv, CellStr kv.2));
      [constructor|done]. }
  repeat case_decide.
  - by apply dset_Forall.
  - by apply (foldl_dset_Forall text_entry Some (λ _, CellNone)).
  - done.
Qed.

Lemma filter_nil_forallb {X} (P : X → bool) (l : list X) :
  filter (λ x, P x) l = [] ↔ forallb (λ x, negb (P x)) l = true.
Proof.
  induction l as [|x l IH]; simpl; [done|].
  destruct (P x) eqn:HP; simpl.
  - rewrite filter_cons_True by (rewrite HP; exact I). done.
  - rewrite filter_cons_False by (rewrite HP; intros []). done.
Qed.

Lemma not_missing_text r field :
  row_ok r → is_missing r field = false →
  ∃ s, dget (Some field) r = Some (CellStr s)
       ∧ s ≠ EmptyString ∧ strip s ≠ EmptyString.
Proof.
  intros Hok. unfold is_missing.
  destruct (dget (Some field) r) as [c|] eqn:Hget; [|done].
  apply dget_Some_elem in Hget.
  pose proof (proj1 (Forall_forall _ _) Hok _ Hget) as Hc.
  destruct c as [|s|extra]; simpl in *; [done| |done].
  intros [Hs Hb]%orb_false_elim. exists s. split; [done|].
  split.
  - intros ->. by vm_compute in Hs.
  - by apply bool_decide_eq_false in Hb.
Qed.

Lemma row_valid_field r field :
  row_valid r = true → field ∈ required_columns → is_missing r field = false.
Proof.
  unfold row_valid. rewrite forallb_forall. intros Hall Hin.
  apply negb_true_iff, Hall. by apply list_elem_of_In.
Qed.

Lemma getitem_strip r field :
  row_ok r → is_missing r field = false →
  getitem r field ≫= cell_strip = Return (strip (raw_field r field)).
Proof.
  intros Hok Hm. destruct (not_missing_text r field Hok Hm) as (s & Hs & _).
  unfold getitem, raw_field. by rewrite Hs.
Qed.

Lemma make_question_valid r :
  row_ok r → row_valid r = true → make_question r = Return (question_of_row r).
Proof.
  intros Hok Hv. unfold make_question.
  rewrite !getitem_strip
    by first [done | apply row_valid_field; [done | compute_done]].
  done.
Qed.

(** A valid row has a true value, so the first test of the loop keeps it. *)
Lemma row_valid_any r : row_valid r = true → existsb truth (dvalues r) = true.
Proof.
  intros Hv.
  assert (is_missing r "Chapter" = false) as Hm
    by (apply row_valid_field; [done|compute_done]).
  unfold is_missing in Hm.
  destruct (dget (Some "Chapter") r) as [c|] eqn:Hget; [|done].
  apply orb_false_elim in Hm as [Ht%negb_false_iff _].
  apply existsb_exists. exists c. split; [|done].
  apply list_elem_of_In, list_elem_of_fmap. exists (Some "Chapter", c).
  split; [done|]. by apply dget_Some_elem.
Qed.

(** The loop keeps exactly the valid rows, in order, and never raises. *)
Lemma read_questions_spec rows : ∀ questions,
  Forall row_ok rows →
  read_questions rows questions
  = Return (questions ++ (question_of_row <$> filter (λ r, row_valid r) rows)).
Proof.
  induction rows as [|r rows IH]; intros questions Hok; simpl.
  - by rewrite app_nil_r.
  - apply Forall_cons in Hok as [Hr Hrows].
    destruct (row_valid r) eqn:Hv.
    + rewrite row_valid_any by done. simpl.
      rewrite (proj2 (filter_nil_forallb (is_missing r) required_columns)) by done.
      rewrite make_question_valid by done. simpl.
      rewrite IH by done. rewrite filter_cons_True by (rewrite Hv; exact I).
      by rewrite fmap_cons, <-app_assoc.
    + rewrite filter_cons_False by (rewrite Hv; intros []).
      destruct (existsb truth (dvalues r)); simpl; [|by apply IH].
      destruct (filter (λ field, is_missing r field) required_columns) eqn:Hf.
      * apply filter_nil_forallb in Hf. unfold row_valid in Hv. congruence.
      * by apply IH.
Qed.

(** ** Grouping by chapter: [organize] *)

Lemma organize_foldl qs : organize qs = foldl organize_step [] qs.
Proof. reflexivity. Qed.

Lemma organize_step_dget cq q c :
  dget c (organize_step cq q)
  = if decide (chapter q = c) then Some (default [] (dget c cq) ++ [q])
    else dget c cq.
Proof.
  unfold organize_step. destruct (decide (chapter q = c)) as [<-|Hne].
  - rewrite dget_dset_eq. unfold dmem.
    destruct (dget (chapter q) cq) eqn:Hg; [by rewrite Hg|].
    by rewrite dget_dset_eq.
  - rewrite dget_dset_ne by done.
    destruct (dmem (chapter q) cq); [done|]. by rewrite dget_dset_ne.
Qed.

Lemma organize_step_dkeys cq q :
  dkeys (organize_step cq q)
  = if decide (chapter q ∈ dkeys cq) then dkeys cq else dkeys cq ++ [chapter q].
Proof.
  unfold organize_step. destruct (dmem (chapter q) cq) eqn:Hm.
  - apply dmem_true in Hm. rewrite decide_True by done.
    by apply dkeys_dset_mem.
  - assert (chapter q ∉ dkeys cq) as Hn by (rewrite <-dmem_true; congruence).
    rewrite decide_False by done.
    rewrite dkeys_dset_mem; [by apply dkeys_dset_new|].
    rewrite dkeys_dset_new by done. apply elem_of_app. right. left.
Qed.

Lemma organize_step_count cq q :
  question_count (organize_step cq q) = S (question_count cq).
Proof.
  unfold organize_step, question_count.
  set (cq1 := if dmem (chapter q) cq then cq else dset (chapter q) [] cq).
  assert (sum_list (length <$> dvalues cq1) = sum_list (length <$> dvalues cq)
          ∧ from_option length 0 (dget (chapter q) cq1)
            = length (default [] (dget (chapter q) cq1))) as [H1 H2].
  { split; [|by destruct (dget (chapter q) cq1)].
    unfold cq1, dmem. destruct (dget (chapter q) cq) eqn:Hg; [done|].
    pose proof (sum_values_dset length cq (chapter q) []) as Hs.
    rewrite Hg in Hs. simpl in Hs. lia. }
  pose proof (sum_values_dset length cq1 (chapter q)
                (default [] (dget (chapter q) cq1) ++ [q])) as Hs.
  rewrite length_app in Hs. simpl in Hs. lia.
Qed.

Lemma filter_all {X} (P : X → Prop) `{∀ x, Decision (P x)} (l : list X) :
  (∀ x, P x) → filter P l = l.
Proof.
  intros HP. induction l as [|x l IH]; [done|].
  by rewrite filter_cons_True, IH.
Qed.

Lemma foldl_organize_dget qs c : ∀ acc,
  dget c (foldl organize_step acc qs)
  = match dget c acc, of_chapter c qs with
    | None, [] => None
    | o, l => Some (default [] o ++ l)
    end.
Proof.
  unfold of_chapter.
  induction qs as [|q qs IH]; intros acc; simpl.
  - destruct (dget c acc); simpl; by rewrite ?app_nil_r.
  - rewrite IH, organize_step_dget.
    destruct (decide (chapter q = c)) as [Hc|Hc].
    + rewrite filter_cons_True by done.
      destruct (dget c acc), (filter (λ q, chapter q = c) qs); simpl;
        by rewrite <-?app_assoc.
    + by rewrite filter_cons_False by done.
Qed.

Lemma foldl_organize_dkeys qs : ∀ acc,
  dkeys (foldl organize_step acc qs)
  = dkeys acc ++ filter (λ c, c ∉ dkeys acc) (first_seen (chapter <$> qs)).
Proof.
  induction qs as [|q qs IH]; intros acc; csimpl.
  - by rewrite app_nil_r.
  - rewrite IH, organize_step_dkeys.
    destruct (decide (chapter q ∈ dkeys acc)) as [Hin|Hnin].
    + rewrite filter_cons_False by (by intros ?). f_equal.
      rewrite list_filter_filter. apply list_filter_iff.
      intros c. split; [|tauto]. intros Hc. split; [done|]. by intros ->.
    + rewrite filter_cons_True by done. rewrite <-app_assoc. simpl. do 2 f_equal.
      rewrite list_filter_filter. apply list_filter_iff.
      intros c. rewrite elem_of_app, list_elem_of_singleton. tauto.
Qed.

Lemma foldl_organize_count qs : ∀ acc,
  question_count (foldl organize_step acc qs) = question_count acc + length qs.
Proof.
  induction qs as [|q qs IH]; intros acc; simpl; [lia|].
  rewrite IH, organize_step_count. lia.
Qed.

(** [organize]: the chapters in the order they are first seen; under
    each chapter its questions in their original order; every question
    under one chapter. *)
Lemma organize_spec qs :
  dkeys (organize qs) = first_seen (chapter <$> qs)
  ∧ (∀ c, dget c (organize qs)
          = if decide (c ∈ chapter <$> qs) then Some (of_chapter c qs) else None)
  ∧ question_count (organize qs) = length qs.
Proof.
  rewrite organize_foldl. split_and!.
  - rewrite foldl_organize_dkeys. simpl. apply filter_all.
    intros c. apply not_elem_of_nil.
  - intros c. rewrite foldl_organize_dget. simpl.
    destruct (of_chapter c qs) as [|q l] eqn:Hof.
    + rewrite decide_False; [done|].
      intros (q & -> & Hq)%list_elem_of_fmap.
      eapply (filter_nil_not_elem_of _ _ q); [exact Hof|done|done].
    + rewrite decide_True; [done|].
      assert (q ∈ of_chapter c qs) as Hq by (rewrite Hof; left).
      apply list_elem_of_filter in Hq as [<- Hq]. by apply list_elem_of_fmap_2.
  - by rewrite foldl_organize_count.
Qed.

(** ** Loading: [load_csv] on uploaded content *)

(** [load_csv] on uploaded content with a header, result by result. *)
Lemma load_csv_upload fs filename header records :
  load_csv fs filename (upload (header :: records)) =
    if has_required_columns header then
      match valid_questions header records with
      | [] => (false, inl no_valid_questions_message)
      | _ :: _ => (true, inr (organize (valid_questions header records)))
      end
    else (false, inl (missing_columns_message header)).
Proof.
  unfold load_csv, load_csv_try, upload. cbn [decode_utf8 mbind result_mbind result_bind].
  unfold load_from_reader. cbn [fieldnames mbind result_mbind result_bind].
  fold (has_required_columns header).
  destruct (has_required_columns header); [|done]. cbn [negb].
  unfold reader_rows. cbn [tail]. rewrite read_questions_spec.
  - cbn [result_bind app]. fold (valid_questions header records).
    by destruct (valid_questions header records).
  - apply Forall_fmap, Forall_forall. intros record _. apply dict_row_ok.
Qed.

(** On a file of the disk the reader outlives the [with] block that
    opened the file: whatever the file holds, if it exists and is not
    empty, reading the header raises and the load fails. *)
Lemma load_csv_disk_closed fs filename file :
  fs filename = Some file → getsize file ≠ 0 →
  load_csv fs filename None = (false, inl closed_file_message).
Proof.
  intros Hf Hs. unfold load_csv, load_csv_try. rewrite Hf.
  by rewrite decide_False.
Qed.

(** A record too short for a column leaves it [None]. *)
Lemma foldl_dset_none_get (keys : list string) k : ∀ d : row,
  k ∈ keys →
  dget (Some k) (foldl (λ d key, dset (Some key) CellNone d) d keys)
  = Some CellNone.
Proof.
  assert (∀ (ks : list string) (d : row), k ∉ ks →
            dget (Some k) (foldl (λ d key, dset (Some key) CellNone d) d ks)
            = dget (Some k) d) as Hkeep.
  { induction ks as [|k' ks IH]; intros d Hn; simpl; [done|].
    apply not_elem_of_cons in Hn as [Hne Hn].
    rewrite IH by done. apply dget_dset_ne. congruence. }
  induction keys as [|k' keys IH]; intros d Hin; simpl.
  - by apply elem_of_nil in Hin.
  - destruct (decide (k ∈ keys)) as [Hk|Hk]; [by apply IH|].
    apply elem_of_cons in Hin as [->|Hin]; [|done].
    rewrite Hkeep by done. apply dget_dset_eq.
Qed.

(** The empty record is no valid row of a header with the columns. *)
Lemma dict_row_nil_invalid header :
  has_required_columns header = true → row_valid (dict_row header []) = false.
Proof.
  intros Hreq.
  assert ("Chapter" ∈ header) as Hin.
  { unfold has_required_columns in Hreq. rewrite forallb_forall in Hreq.
    eapply bool_decide_unpack, Is_true_true, Hreq. simpl. by left. }
  assert (is_missing (dict_row header []) "Chapter" = true) as Hm.
  { unfold is_missing, dict_row. rewrite zip_with_nil_r. simpl.
    destruct header as [|h header]; [by apply elem_of_nil in Hin|].
    rewrite decide_True by (simpl; lia).
    rewrite drop_0. by rewrite foldl_dset_none_get. }
  unfold row_valid, required_columns. simpl. by rewrite Hm.
Qed.

Lemma valid_questions_all header records :
  has_required_columns header = true →
  Forall (λ record, row_valid (dict_row header record) = true) records →
  valid_questions header records
  = (λ record, question_of_row (dict_row header record)) <$> records.
Proof.
  intros Hreq Hall. unfold valid_questions.
  induction Hall as [|record records Hv Hall IH]; [done|].
  assert (record ≠ []) as Hne.
  { intros ->. rewrite dict_row_nil_invalid in Hv; done. }
  rewrite filter_cons_True by done. rewrite fmap_cons.
  rewrite filter_cons_True by (rewrite Hv; exact I).
  by rewrite !fmap_cons, IH.
Qed.

Lemma valid_questions_none header records :
  has_required_columns header = true →
  valid_questions header records = []
  ↔ Forall (λ record, row_valid (dict_row header record) = false) records.
Proof.
  intros Hreq. unfold valid_questions.
  induction records as [|record records IH]; [by split; [constructor|]|].
  rewrite Forall_cons, <-IH.
  destruct (decide (record = [])) as [->|Hne].
  - rewrite filter_cons_False by (by intros ?).
    rewrite dict_row_nil_invalid by done. tauto.
  - rewrite filter_cons_True by done. rewrite fmap_cons.
    destruct (row_valid (dict_row header record)) eqn:Hv.
    + rewrite filter_cons_True by (rewrite Hv; exact I).
      split; [done | by intros [? _]].
    + rewrite filter_cons_False by (rewrite Hv; intros []). tauto.
Qed.

(** ** Trimmed fields *)

Lemma strip_trimmed s : trimmed (strip s).
Proof. destruct (strip_spec s) as (a & b & _ & _ & _ & Hh & Ht). by split. Qed.

Lemma question_of_row_fields r :
  row_ok r → row_valid r = true →
  Forall (λ s, trimmed s ∧ s ≠ EmptyString) (fields (question_of_row r)).
Proof.
  intros Hok Hv.
  assert (∀ field, field ∈ required_columns →
            trimmed (strip (raw_field r field))
            ∧ strip (raw_field r field) ≠ EmptyString) as H.
  { intros field Hin. split; [apply strip_trimmed|].
    destruct (not_missing_text r field Hok (row_valid_field r field Hv Hin))
      as (s & Hs & _ & Hb).
    unfold raw_field. by rewrite Hs. }
  unfold fields, question_of_row. simpl.
  repeat (apply Forall_cons; split; [apply H; compute_done|]). constructor.
Qed.

(** C5 as it holds.  For uploaded CSV content whose header has the seven
    required columns and whose [N >= 1] records each have a non-blank
    value in every required field, [load_csv] succeeds with exactly [N]
    questions: the question of a record has every field trimmed of
    leading and trailing white space; the chapters come in the order in
    which they are first seen, each with its questions in their
    original order; the question count is [N]. *)
Theorem load_csv_upload_valid_rows (fs : filesystem) (filename : string)
    (header : list string) (records : list (list string)) :
  has_required_columns header = true →
  records ≠ [] →
  Forall (λ record, row_valid (dict_row header record) = true) records →
  let qs := (λ record, question_of_row (dict_row header record)) <$> records in
  ∃ cq,
    load_csv fs filename (upload (header :: records)) = (true, inr cq)
    ∧ length qs = length records
    ∧ Forall (λ q, Forall (λ s, trimmed s ∧ s ≠ EmptyString) (fields q)) qs
    ∧ dkeys cq = first_seen (chapter <$> qs)
    ∧ (∀ c, dget c cq
            = if decide (c ∈ chapter <$> qs) then Some (of_chapter c qs) else None)
    ∧ question_count cq = length records.
Proof.
  intros Hreq Hne Hall qs.
  pose proof (valid_questions_all header records Hreq Hall) as Hvq. fold qs in Hvq.
  destruct (organize_spec qs) as (Hkeys & Hget & Hcount).
  exists (organize qs). split_and!; try done.
  - rewrite load_csv_upload, Hreq, Hvq.
    destruct qs eqn:Hqs; [|done].
    destruct records; [done|discriminate Hqs].
  - unfold qs. by rewrite length_fmap.
  - subst qs. apply Forall_fmap. eapply Forall_impl; [exact Hall|].
    intros record Hv. simpl. apply question_of_row_fields; [apply dict_row_ok|done].
  - rewrite Hcount. unfold qs. by rewrite length_fmap.
Qed.

Lemma load_csv_upload_valid_rows_witness :
  has_required_columns required_columns = true
  ∧ example_records ≠ []
  ∧ Forall (λ record, row_valid (dict_row required_columns record) = true)
           example_records
  ∧ load_csv (λ _, None) "quiz.csv" (upload (required_columns :: example_records))
    = (true,
       inr [("Ch1", [mkQuestion "Ch1" "Q1?" "R1" "A" ["B"; "C"; "D"];
                     mkQuestion "Ch1" "Q3?" "R3" "A" ["B"; "C"; "D"]]);
            ("Ch2", [mkQuestion "Ch2" "Q2?" "R2" "X" ["Y"; "Z"; "W"]])]).
Proof.
  assert (has_required_columns required_columns = true) as Hreq by reflexivity.
  assert (example_records ≠ []) as Hne by discriminate.
  assert (Forall (λ record, row_valid (dict_row required_columns record) = true)
                 example_records) as Hall
    by (repeat constructor; vm_compute; reflexivity).
  split; [exact Hreq|]. split; [exact Hne|]. split; [exact Hall|].
  destruct (load_csv_upload_valid_rows (λ _, None) "quiz.csv"
              required_columns example_records Hreq Hne Hall)
    as (cq & Hload & _).
  rewrite Hload. f_equal. f_equal.
  assert (load_csv (λ _, None) "quiz.csv" (upload (required_columns :: example_records))
          = (true,
             inr [("Ch1", [mkQuestion "Ch1" "Q1?" "R1" "A" ["B"; "C"; "D"];
                           mkQuestion "Ch1" "Q3?" "R3" "A" ["B"; "C"; "D"]]);
                  ("Ch2", [mkQuestion "Ch2" "Q2?" "R2" "X" ["Y"; "Z"; "W"]])]))
    as Hrun by (vm_compute; reflexivity).
  rewrite Hload in Hrun. by injection Hrun.
Defined.

(** C5 as stated fails.  A CSV with the seven columns and no record has
    [N = 0] rows, all of them valid; [load_csv] does not succeed with 0
    questions, it fails with the message of the empty result.  And the
    CSV of the example, with its three valid records, does not load
    from a file on disk: the reader is used after its file is closed. *)
Lemma load_csv_valid_rows_can_fail :
  has_required_columns required_columns = true
  ∧ load_csv (λ _, None) "quiz.csv" (upload [required_columns])
    = (false, inl no_valid_questions_message)
  ∧ Forall (λ record, row_valid (dict_row required_columns record) = true)
           example_records
  ∧ load_csv (disk_with "quiz.csv" 120 (required_columns :: example_records))
             "quiz.csv" None
    = (false, inl closed_file_message).
Proof.
  split_and!; [reflexivity|reflexivity| |reflexivity].
  repeat constructor; by vm_compute.
Qed.

(** *** The two other outcomes on uploaded content *)

(** A header that lacks a required column: the failure names the columns
    that were found. *)
Lemma load_csv_upload_missing_columns fs filename header records :
  (∃ col, col ∈ required_columns ∧ col ∉ header) →
  load_csv fs filename (upload (header :: records))
  = (false, inl (missing_columns_message header)).
Proof.
  intros (col & Hreq & Hcol). rewrite load_csv_upload.
  destruct (has_required_columns header) eqn:Hh; [|done].
  unfold has_required_columns in Hh. rewrite forallb_forall in Hh.
  apply list_elem_of_In, Hh, bool_decide_eq_true in Hreq. done.
Qed.

(** With the columns present, the invalid records are left out and the
    load fails, with the message of the empty result, exactly when no
    record is valid. *)
Lemma load_csv_upload_skips_invalid fs filename header records :
  has_required_columns header = true →
  let res := load_csv fs filename (upload (header :: records)) in
  (res = (false, inl no_valid_questions_message)
   ↔ Forall (λ record, row_valid (dict_row header record) = false) records)
  ∧ (res.1 = false → res = (false, inl no_valid_questions_message))
  ∧ (Exists (λ record, row_valid (dict_row header record) = true) records →
     res = (true, inr (organize (valid_questions header records))))
  ∧ (∀ q, q ∈ valid_questions header records →
       ∃ record, record ∈ records ∧ row_valid (dict_row header record) = true
                 ∧ q = question_of_row (dict_row header record)).
Proof.
  intros Hreq res. subst res. rewrite load_csv_upload, Hreq.
  pose proof (valid_questions_none header records Hreq) as Hnone.
  split_and!.
  - rewrite <-Hnone. by destruct (valid_questions header records).
  - by destruct (valid_questions header records).
  - intros Hex. destruct (valid_questions header records) eqn:Hvq; [|done].
    apply (valid_questions_none header records Hreq) in Hvq.
    apply Exists_exists in Hex as (record & Hin & Hv).
    rewrite Forall_forall in Hvq. specialize (Hvq record Hin). congruence.
  - unfold valid_questions.
    intros q (r & -> & [Hv (record & -> & [_ Hin]%list_elem_of_filter)%list_elem_of_fmap
                       ]%list_elem_of_filter)%list_elem_of_fmap.
    exists record. split_and!; [done| |done]. by destruct (row_valid _).
Qed.

(** *** Files on disk *)

(** C6, at the input where the code departs from it.  Read from disk, a
    CSV with the seven columns, a valid record and a record with a blank
    field does not load its valid record: the load fails on the closed
    file; and a CSV without any valid record fails with that same
    message, not with the message of the empty result.  The same texts,
    uploaded, load as C6 says. *)
Theorem load_csv_disk_fails_with_valid_row :
  load_csv (disk_with "quiz.csv" 96 one_valid_one_blank) "quiz.csv" None
    = (false, inl closed_file_message)
  ∧ load_csv (disk_with "quiz.csv" 96 only_blank) "quiz.csv" None
    = (false, inl closed_file_message)
  ∧ closed_file_message ≠ no_valid_questions_message
  ∧ load_csv (λ _, None) "quiz.csv" (upload one_valid_one_blank)
    = (true, inr [("Ch1", [mkQuestion "Ch1" "Q1?" "R1" "A" ["B"; "C"; "D"]])])
  ∧ load_csv (λ _, None) "quiz.csv" (upload only_blank)
    = (false, inl no_valid_questions_message).
Proof. by vm_compute. Qed.

(** C7, at the input where the code departs from it.  Read from disk, a
    CSV whose header lacks required columns fails on the closed file:
    the message is not the one of the missing columns and names no
    column.  The same text, uploaded, fails as C7 says. *)
Theorem load_csv_disk_hides_missing_columns :
  load_csv (disk_with "quiz.csv" 35 two_columns) "quiz.csv" None
    = (false, inl closed_file_message)
  ∧ closed_file_message ≠ missing_columns_message ["Chapter"; "Question Text"]
  ∧ load_csv (λ _, None) "quiz.csv" (upload two_columns)
    = (false, inl "CSV missing required columns. Found: ['Chapter', 'Question Text']").
Proof. by vm_compute. Qed.

(** Uploaded content without any record has no header at all: the test
    of the columns raises, and the failure is the one of the [except]
    clause. *)
Example load_csv_upload_empty :
  load_csv (λ _, None) "quiz.csv" (upload [])
  = (false, inl "Error loading CSV: argument of type 'NoneType' is not iterable").
Proof. reflexivity. Qed.

(** The other early results of the disk branch. *)
Example load_csv_disk_missing_or_empty :
  load_csv (λ _, None) "quiz.csv" None
    = (false, inl "File not found. Please check the filename.")
  ∧ load_csv (disk_with "quiz.csv" 0 []) "quiz.csv" None
    = (false, inl "CSV file is empty.").
Proof. by split. Qed.

(* ================================================================== *)
(** * Further properties *)
(* ================================================================== *)

(** ** The statistics of a session, chapter by chapter *)

(** What one call does to the entry of each chapter, and to the order of
    the chapters. *)
Lemma submit_answer_chapter_stats self q a n :
  let r := bool_decide (a = Some (correct_answer q)) in
  let cs := chapter_stats (current_stats self) in
  let cs' := chapter_stats (current_stats (submit_answer self q a n).2) in
  (∀ c, dget c cs' =
        if decide (chapter q = c)
        then Some (mkChapterStats (S (asked_of c cs))
                                  (correct_of c cs + (if r then 1 else 0)))
        else dget c cs)
  ∧ dkeys cs' =
      if decide (chapter q ∈ dkeys cs) then dkeys cs else dkeys cs ++ [chapter q].
Proof.
  intros r cs cs'. subst cs'. unfold submit_answer. cbn [snd current_stats with_stats chapter_stats].
  fold cs r.
  set (cs1 := if dmem (chapter q) cs then cs
              else dset (chapter q) (mkChapterStats 0 0) cs).
  assert (dget (chapter q) cs1
          = Some (mkChapterStats (asked_of (chapter q) cs) (correct_of (chapter q) cs))
          ∧ (∀ c, chapter q ≠ c → dget c cs1 = dget c cs)
          ∧ dkeys cs1 = (if decide (chapter q ∈ dkeys cs) then dkeys cs
                         else dkeys cs ++ [chapter q])
          ∧ chapter q ∈ dkeys cs1) as (Hget & Hother & Hkeys & Hin).
  { unfold cs1, asked_of, correct_of. destruct (dmem (chapter q) cs) eqn:Hm.
    - pose proof (proj1 (dmem_true cs (chapter q)) Hm) as Hk.
      rewrite decide_True by done. unfold dmem in Hm.
      destruct (dget (chapter q) cs) as [[x y]|]; [done|discriminate]. 
    - assert (chapter q ∉ dkeys cs) as Hk by (rewrite <-dmem_true; congruence).
      rewrite decide_False by done. unfold dmem in Hm.
      destruct (dget (chapter q) cs) eqn:Hg; [discriminate|].
      rewrite dget_dset_eq. split_and!; [done| |by apply dkeys_dset_new|].
      + intros c Hc. by apply dget_dset_ne.
      + rewrite dkeys_dset_new by done. apply elem_of_app. right. left. }
  split.
  - intros c. destruct (decide (chapter q = c)) as [<-|Hc].
    + rewrite dget_dset_eq, Hget. simpl. destruct r; simpl; repeat f_equal; lia.
    + rewrite dget_dset_ne by done. by apply Hother.
  - rewrite dkeys_dset_mem by done. exact Hkeys.
Qed.

Lemma calls_of_chapter_cons c q a n calls :
  calls_of_chapter c ((q, a, n) :: calls)
  = if decide (chapter q = c) then (q, a, n) :: calls_of_chapter c calls
    else calls_of_chapter c calls.
Proof.
  unfold calls_of_chapter. destruct (decide (chapter q = c)).
  - by rewrite filter_cons_True.
  - by rewrite filter_cons_False.
Qed.

Lemma submit_all_chapter_stats calls c : ∀ self,
  let cs := chapter_stats (current_stats self) in
  dget c (chapter_stats (current_stats (submit_all self calls)))
  = match dget c cs, calls_of_chapter c calls with
    | None, [] => None
    | _, l => Some (mkChapterStats (asked_of c cs + length l)
                                   (correct_of c cs + count_right l))
    end.
Proof.
  induction calls as [|[[q a] n] calls IH]; intros self; cbv zeta.
  - cbn. unfold asked_of, correct_of.
    destruct (dget c (chapter_stats (current_stats self))) as [[x y]|]; [|done].
    simpl. do 2 f_equal; lia.
  - rewrite submit_all_cons, IH, calls_of_chapter_cons.
    destruct (submit_answer_chapter_stats self q a n) as [Hget _].
    cbv zeta in Hget. cbv zeta. unfold asked_of, correct_of. rewrite (Hget c).
    destruct (decide (chapter q = c)) as [Hc|Hc]; [|done].
    unfold asked_of, correct_of.
    destruct (dget c (chapter_stats (current_stats self)));
      cbn [asked correct length]; do 2 f_equal;
      rewrite ?count_right_cons; lia.
Qed.

Lemma submit_all_chapter_keys calls : ∀ self,
  dkeys (chapter_stats (current_stats (submit_all self calls)))
  = dkeys (chapter_stats (current_stats self))
    ++ filter (λ c, c ∉ dkeys (chapter_stats (current_stats self)))
              (first_seen ((λ c : call, chapter c.1.1) <$> calls)).
Proof.
  induction calls as [|[[q a] n] calls IH]; intros self.
  - cbn. by rewrite app_nil_r.
  - rewrite submit_all_cons, IH.
    destruct (submit_answer_chapter_stats self q a n) as [_ Hkeys].
    cbv zeta in Hkeys. rewrite Hkeys. csimpl.
    destruct (decide (chapter q ∈ dkeys (chapter_stats (current_stats self))))
      as [Hin|Hnin].
    + rewrite filter_cons_False by (by intros ?). f_equal.
      rewrite list_filter_filter. apply list_filter_iff.
      intros c. split; [|tauto]. intros Hc. split; [done|]. by intros ->.
    + rewrite filter_cons_True by done. rewrite <-app_assoc. simpl. do 2 f_equal.
      rewrite list_filter_filter. apply list_filter_iff.
      intros c. rewrite elem_of_app, list_elem_of_singleton. tauto.
Qed.

(** X1. From freshly reset statistics, after any calls of
    [submit_answer], [chapter_stats] lists the chapters of the questions
    asked in the order in which they were first asked; the entry of a
    chapter counts the calls for that chapter under [asked] and the right
    ones among them under [correct]; a chapter never asked has no
    entry. *)
Theorem chapter_stats_per_chapter (self : QuizManager) (calls : list call) :
  fresh (current_stats self) →
  let cs := chapter_stats (current_stats (submit_all self calls)) in
  dkeys cs = first_seen ((λ c : call, chapter c.1.1) <$> calls)
  ∧ ∀ c, dget c cs =
         match calls_of_chapter c calls with
         | [] => None
         | l => Some (mkChapterStats (length l) (count_right l))
         end.
Proof.
  intros (_ & _ & Hcs & _) cs. subst cs. split.
  - rewrite submit_all_chapter_keys, Hcs. simpl. apply filter_all.
    intros c. apply not_elem_of_nil.
  - intros c. rewrite submit_all_chapter_stats.
    unfold asked_of, correct_of. rewrite Hcs. simpl.
    by destruct (calls_of_chapter c calls).
Qed.

Lemma chapter_stats_per_chapter_witness :
  let q1 := mkQuestion "Ch1" "Q1?" "R1" "A" ["B"; "C"; "D"] in
  let q2 := mkQuestion "Ch2" "Q2?" "R2" "X" ["Y"; "Z"; "W"] in
  let calls : list call :=
    [(q2, Some "X", 1%Z); (q1, Some "B", 2%Z); (q2, None, 3%Z)] in
  fresh (current_stats __init__)
  ∧ dkeys (chapter_stats (current_stats (submit_all __init__ calls)))
    = ["Ch2"; "Ch1"]
  ∧ dget "Ch2" (chapter_stats (current_stats (submit_all __init__ calls)))
    = Some (mkChapterStats 2 1).
Proof.
  intros q1 q2 calls.
  destruct (chapter_stats_per_chapter __init__ calls init_fresh) as [Hk Hg].
  split; [exact init_fresh|]. split.
  - rewrite Hk. reflexivity.
  - rewrite (Hg "Ch2"). reflexivity.
Defined.

(** ** The missed questions of a session *)

Lemma submit_all_missed calls : ∀ self,
  missed_questions (current_stats (submit_all self calls))
  = missed_questions (current_stats self)
    ++ (missed_record <$> filter (λ c, is_right c = false) calls).
Proof.
  induction calls as [|[[q a] n] calls IH]; intros self.
  - cbn. by rewrite app_nil_r.
  - rewrite submit_all_cons, IH.
    destruct (submit_answer_step self q a n) as (_ & _ & _ & Hm & _).
    rewrite Hm, <-app_assoc. f_equal.
    destruct (bool_decide (a = Some (correct_answer q))) eqn:Hr.
    + rewrite filter_cons_False; [done|].
      unfold is_right. simpl. by rewrite Hr.
    + rewrite filter_cons_True by exact Hr. done.
Qed.

(** X2. Any calls of [submit_answer] append to [missed_questions] the
    records of exactly the wrong calls, in the order of the calls, each
    with the question, the answer given and the number of its call; so
    no record ever added holds the correct answer. *)
Theorem missed_questions_are_the_wrong_calls (self : QuizManager)
    (calls : list call) :
  let missed' := missed_questions (current_stats (submit_all self calls)) in
  let added := missed_record <$> filter (λ c, is_right c = false) calls in
  missed' = missed_questions (current_stats self) ++ added
  ∧ Forall (λ m, user_answer m ≠ Some (correct_answer (missed_question m))) added.
Proof.
  intros missed' added. split; [apply submit_all_missed|].
  subst added. apply Forall_fmap, Forall_forall.
  intros [[q a] n] [Hw _]%list_elem_of_filter. simpl.
  unfold is_right in Hw. simpl in Hw. by apply bool_decide_eq_false in Hw.
Qed.

(** ** [start_quiz] and the count it is given *)

Lemma slice_to_length {A} (k : Z) (x : list A) :
  length (slice_to k x)
  = if decide (0 ≤ k)%Z then Nat.min (Z.to_nat k) (length x)
    else Z.to_nat (Z.of_nat (length x) + k).
Proof.
  unfold slice_to. case_decide; rewrite length_take; [done|lia].
Qed.

(** X3. [start_quiz] does not check the count.  On a non-empty union
    every count succeeds: a count of at least the size of the union
    returns all the questions of the union, each once, in the shuffled
    order; a count [k >= 0] returns [min(k, size)] questions, so none
    for 0; a negative count returns [size + k] questions (none when this
    is negative), the shuffled union without its last [-k]. *)
Theorem start_quiz_any_count (self : QuizManager) (now : Z) (g : rng)
    (cls : string) (chs : list string) (k : Z)
    (pool : dict string (list Question)) :
  let union := collect_questions chs pool in
  union ≠ [] →
  ∃ selected,
    (start_quiz self now g cls chs k pool).1.1 = (true, inr selected)
    ∧ selected `prefix_of` (shuffle g union).1
    ∧ length selected
      = (if decide (0 ≤ k)%Z then Nat.min (Z.to_nat k) (length union)
         else Z.to_nat (Z.of_nat (length union) + k))
    ∧ ((Z.of_nat (length union) ≤ k)%Z → selected ≡ₚ union).
Proof.
  intros union Hne. rewrite start_quiz_unfold. fold union.
  destruct union as [|q0 qs0] eqn:Hu; [done|]. rewrite <-Hu. cbn [fst snd].
  exists (slice_to k (shuffle g union).1). split_and!; [done| | |].
  - unfold slice_to. case_decide; apply prefix_take.
  - by rewrite slice_to_length, shuffle_length.
  - intros Hk. rewrite slice_to_take by lia.
    rewrite take_ge by (rewrite shuffle_length; lia).
    apply shuffle_Permutation.
Qed.

Lemma start_quiz_any_count_witness :
  let q1 := mkQuestion "Ch1" "Q1?" "R1" "A" ["B"; "C"; "D"] in
  let q2 := mkQuestion "Ch1" "Q2?" "R2" "X" ["Y"; "Z"; "W"] in
  let pool : dict string (list Question) := [("Ch1", [q1; q2])] in
  collect_questions ["Ch1"] pool ≠ []
  ∧ ∃ selected,
      (start_quiz __init__ 0 [] "Biology" ["Ch1"] (-1) pool).1.1
        = (true, inr selected)
      ∧ length selected = 1.
Proof.
  intros q1 q2 pool.
  assert (collect_questions ["Ch1"] pool ≠ []) as Hne by discriminate.
  split; [exact Hne|].
  destruct (start_quiz_any_count __init__ 0 [] "Biology" ["Ch1"] (-1) pool Hne)
    as (selected & Hres & _ & Hlen & _).
  exists selected. split; [exact Hres|]. rewrite Hlen. reflexivity.
Defined.

(** ** [take_quiz]: the number on offer and the start of a session *)

Lemma total_available_in_pool chs pool :
  Forall (λ c, c ∈ dkeys pool) chs →
  total_available chs pool = Return (length (collect_questions chs pool)).
Proof.
  rewrite collect_questions_bind.
  induction chs as [|c chs IH]; intros Hall; csimpl; [done|].
  apply Forall_cons in Hall as [Hc Hall].
  unfold chapter_list at 1.
  destruct (dget c pool) as [qs|] eqn:Hg.
  - rewrite IH by done. simpl. by rewrite length_app.
  - apply dget_None in Hg. done.
Qed.

Lemma total_available_missing chs pool :
  Exists (λ c, c ∉ dkeys pool) chs →
  ∃ c, c ∈ chs ∧ (c ∉ dkeys pool)
       ∧ total_available chs pool = Raise (KeyError (repr_str c)).
Proof.
  induction chs as [|c chs IH]; intros Hex; [by apply Exists_nil in Hex|].
  simpl. destruct (dget c pool) as [qs|] eqn:Hg.
  - apply Exists_cons in Hex as [Hc|Hex].
    + exfalso. apply Hc. apply dmem_true. unfold dmem. by rewrite Hg.
    + destruct (IH Hex) as (c' & Hin & Hn & Hr).
      exists c'. split_and!; [by right|done|]. by rewrite Hr.
  - exists c. split_and!; [left| |done]. by apply dget_None.
Qed.

(** X4. The number of questions the quiz page offers for the selected
    chapters is the size of the list [start_quiz] shuffles, when every
    selected chapter is a chapter of the class; a selected chapter that
    the class lacks makes the sum raise [KeyError], whereas [start_quiz]
    passes over such a chapter. *)
Theorem total_available_is_union_size (chs : list string)
    (pool : dict string (list Question)) :
  (Forall (λ c, c ∈ dkeys pool) chs →
   total_available chs pool = Return (length (collect_questions chs pool)))
  ∧ (Exists (λ c, c ∉ dkeys pool) chs →
     (∃ c, c ∈ chs ∧ (c ∉ dkeys pool)
           ∧ total_available chs pool = Raise (KeyError (repr_str c)))
     ∧ collect_questions chs pool
       = collect_questions (filter (λ c, c ∈ dkeys pool) chs) pool).
Proof.
  split; [apply total_available_in_pool|].
  intros Hex. split; [by apply total_available_missing|].
  rewrite !collect_questions_bind. clear Hex.
  induction chs as [|c chs IH]; [done|]. csimpl.
  destruct (decide (c ∈ dkeys pool)) as [Hc|Hc].
  - rewrite filter_cons_True by done. csimpl. by rewrite IH.
  - rewrite filter_cons_False by done. rewrite <-IH.
    apply dget_None in Hc. unfold chapter_list at 1. by rewrite Hc.
Qed.

Lemma total_available_is_union_size_witness :
  let q1 := mkQuestion "Ch1" "Q1?" "R1" "A" ["B"; "C"; "D"] in
  let pool : dict string (list Question) := [("Ch1", [q1])] in
  Forall (λ c, c ∈ dkeys pool) ["Ch1"]
  ∧ total_available ["Ch1"] pool = Return 1
  ∧ Exists (λ c, c ∉ dkeys pool) ["Ch1"; "Ch9"]
  ∧ ∃ c, total_available ["Ch1"; "Ch9"] pool = Raise (KeyError (repr_str c)).
Proof.
  intros q1 pool.
  assert (Forall (λ c, c ∈ dkeys pool) ["Ch1"]) as Hall
    by (repeat constructor).
  assert (Exists (λ c, c ∉ dkeys pool) ["Ch1"; "Ch9"]) as Hex
    by (apply Exists_cons_tl, Exists_cons_hd; compute_done).
  destruct (total_available_is_union_size ["Ch1"] pool) as [H1 _].
  destruct (total_available_is_union_size ["Ch1"; "Ch9"] pool) as [_ H2].
  split; [exact Hall|]. split; [exact (H1 Hall)|]. split; [exact Hex|].
  destruct (H2 Hex) as [(c & _ & _ & Hr) _]. by exists c.
Defined.

Lemma total_available_Return chs pool n :
  total_available chs pool = Return n →
  n = length (collect_questions chs pool).
Proof.
  intros Hn.
  destruct (decide (Forall (λ c, c ∈ dkeys pool) chs)) as [Hall|Hex].
  - rewrite total_available_in_pool in Hn by done. by injection Hn.
  - apply not_Forall_Exists in Hex; [|apply _].
    destruct (total_available_missing chs pool Hex) as (c & _ & _ & Hr).
    congruence.
Qed.

(** The button [Start Quiz] with a count the page allows. *)
Lemma start_button_success self now g ss flags cls chs k pool n :
  total_available chs pool = Return n →
  (1 ≤ k ≤ Z.of_nat n)%Z →
  let union := collect_questions chs pool in
  let selected := take (Z.to_nat k) (shuffle g union).1 in
  start_button self now g ss flags cls chs k pool
  = (with_stats self (reset_stats now cls chs),
     {| current_quiz := selected;
        current_question := 0;
        user_answers := replicate (Z.to_nat k) None;
        option_mapping := option_mapping ss |},
     {| quiz_started := true; quiz_completed := false |},
     (shuffle g union).2, None)
  ∧ length selected = Z.to_nat k.
Proof.
  intros Hn Hk union selected. apply total_available_Return in Hn as ->.
  fold union in Hk.
  assert (length selected = Z.to_nat k) as Hlen.
  { unfold selected. rewrite length_take, shuffle_length. lia. }
  split; [|done]. unfold start_button.
  destruct chs as [|c chs]; [simpl in Hk; lia|].
  rewrite start_quiz_unfold. fold union.
  destruct union as [|q0 qs0] eqn:Hu; [simpl in Hk; lia|].
  cbn [fst snd]. rewrite slice_to_take by lia. fold selected.
  cbn beta iota zeta. by rewrite Hlen.
Qed.

(** X5. A count between 1 and the number on offer always opens a
    session: for selected chapters of the class with [n] questions on
    offer and [1 <= k <= n], the button [Start Quiz] opens a session of
    exactly [k] questions at position 0 with [k] unanswered slots, sets
    the flags to started and not completed, shows no message, and leaves
    freshly reset statistics that carry the class name. *)
Theorem start_button_opens_session (self : QuizManager) (now : Z) (g : rng)
    (ss : SessionState) (flags : PageFlags) (cls : string)
    (chs : list string) (k : Z) (pool : dict string (list Question))
    (n : nat) :
  total_available chs pool = Return n →
  (1 ≤ k ≤ Z.of_nat n)%Z →
  let r := start_button self now g ss flags cls chs k pool in
  length (current_quiz r.1.1.1.2) = Z.to_nat k
  ∧ current_question r.1.1.1.2 = 0
  ∧ user_answers r.1.1.1.2 = replicate (Z.to_nat k) None
  ∧ r.1.1.2 = {| quiz_started := true; quiz_completed := false |}
  ∧ r.2 = None
  ∧ fresh (current_stats r.1.1.1.1)
  ∧ class_name (current_stats r.1.1.1.1) = Some cls.
Proof.
  intros Hn Hk r.
  destruct (start_button_success self now g ss flags cls chs k pool n Hn Hk)
    as [Hr Hlen].
  subst r. rewrite Hr. cbn. by repeat split.
Qed.

Lemma start_button_opens_session_witness :
  let q1 := mkQuestion "Ch1" "Q1?" "R1" "A" ["B"; "C"; "D"] in
  let q2 := mkQuestion "Ch1" "Q2?" "R2" "X" ["Y"; "Z"; "W"] in
  let pool : dict string (list Question) := [("Ch1", [q1; q2])] in
  let r := start_button __init__ 0 [1] (mkSessionState [] 0 [] None)
             (mkPageFlags false false) "Biology" ["Ch1"] 2 pool in
  total_available ["Ch1"] pool = Return 2
  ∧ (1 ≤ 2 ≤ Z.of_nat 2)%Z
  ∧ length (current_quiz r.1.1.1.2) = 2
  ∧ user_answers r.1.1.1.2 = [None; None].
Proof.
  intros q1 q2 pool r.
  assert (total_available ["Ch1"] pool = Return 2) as Hn by reflexivity.
  assert (1 ≤ 2 ≤ Z.of_nat 2)%Z as Hk by lia.
  split; [exact Hn|]. split; [exact Hk|].
  destruct (start_button_opens_session __init__ 0 [1]
              (mkSessionState [] 0 [] None) (mkPageFlags false false)
              "Biology" ["Ch1"] 2 pool 2 Hn Hk) as (Hl & _ & Ha & _).
  split; [exact Hl|exact Ha].
Defined.

(** ** The button [Submit Quiz] *)

Lemma submit_loop_calls pairs : ∀ i self,
  submit_loop i pairs self
  = submit_all self
      (omap (λ p : nat * (Question * option string),
               match p.2.2 with
               | Some a => Some (p.2.1, Some a, Z.of_nat p.1 + 1)%Z
               | None => None
               end)
            (imap (λ j qa, (i + j, qa)) pairs)).
Proof.
  induction pairs as [|[q answer] pairs IH]; intros i self; [done|].
  cbn [submit_loop]. rewrite IH. rewrite imap_cons. rewrite Nat.add_0_r.
  assert (imap ((λ j qa, (i + j, qa)) ∘ S) pairs
          = imap (λ j (qa : Question * option string), (S i + j, qa)) pairs) as ->.
  { apply imap_ext. intros j qa _. simpl. f_equal. lia. }
  destruct answer as [a|]; cbn [omap list_omap fst snd]; [|done].
  by rewrite submit_all_cons.
Qed.

Lemma answered_elem questions answers (c : call) :
  c ∈ answered questions answers
  ↔ ∃ i q a, questions !! i = Some q ∧ answers !! i = Some (Some a)
             ∧ c = (q, Some a, Z.of_nat i + 1)%Z.
Proof.
  unfold answered. rewrite list_elem_of_omap. split.
  - intros ([i [q answer]] & Hin & Hc).
    apply elem_of_lookup_imap in Hin as (j & qa & [= <- <-] & Hz).
    apply lookup_zip_with_Some in Hz as (q' & a' & [= <- <-] & Hq & Ha).
    simpl in Hc. destruct answer as [a|]; [|done]. injection Hc as <-.
    by exists i, q, a.
  - intros (i & q & a & Hq & Ha & ->).
    exists (i, (q, Some a)). split; [|done].
    apply elem_of_lookup_imap. exists i, (q, Some a). split; [done|].
    apply lookup_zip_with_Some. by exists q, (Some a).
Qed.

(** X6. The button [Submit Quiz] scores exactly the positions that carry
    an answer, in the order of the positions, position [i] (from 0)
    under the number [i + 1]; a position without an answer is passed
    over: it counts neither as asked nor as wrong.  So
    [total_questions] grows by the number of answered positions and
    [correct_answers] by the number of them answered rightly. *)
Theorem submit_scores_answered_positions (self : QuizManager)
    (questions : list Question) (answers : list (option string)) :
  let calls := answered questions answers in
  let self' := submit_loop 0 (zip questions answers) self in
  self' = submit_all self calls
  ∧ (∀ c, c ∈ calls ↔
          ∃ i q a, questions !! i = Some q ∧ answers !! i = Some (Some a)
                   ∧ c = (q, Some a, Z.of_nat i + 1)%Z)
  ∧ total_questions (current_stats self')
    = total_questions (current_stats self) + length calls
  ∧ correct_answers (current_stats self')
    = correct_answers (current_stats self) + count_right calls
  ∧ length (missed_questions (current_stats self'))
    = length (missed_questions (current_stats self))
      + (length calls - count_right calls).
Proof.
  intros calls self'.
  assert (self' = submit_all self calls) as Heq.
  { subst self' calls. rewrite submit_loop_calls. unfold answered.
    do 2 f_equal. }
  split; [exact Heq|]. split; [apply answered_elem|].
  rewrite Heq.
  destruct (submit_all_counts calls self) as (Ht & Hc & Hm & _). done.
Qed.

Lemma missed_data_of_calls self (l : list call) :
  missed_questions (current_stats self) = missed_record <$> l →
  missed_data self
  = match history self, l with
    | _ :: _, _ :: _ => Some (export_row <$> l)
    | _, _ => None
    end.
Proof.
  intros Hm. unfold missed_data. rewrite Hm.
  destruct (history self) as [|e h]; [done|].
  destruct l as [|c l]; [done|].
  cbn [fmap list_fmap]. do 2 f_equal.
  change (list_fmap call MissedQuestion missed_record l) with (missed_record <$> l).
  by rewrite <-list_fmap_compose.
Qed.

(** X7. After the button [Submit Quiz] in a session that [start_quiz]
    has opened (freshly reset statistics that carry a class name), the
    save returns, and the rows of the missed-questions export of the
    saved manager are those of the answered positions whose answer is
    wrong, in the order of the positions; in every row the answer given
    differs from the correct answer; and there is no export at all when
    no answered position is wrong. *)
Theorem missed_export_after_submit (self : QuizManager) (now : Z)
    (ss : SessionState) (cls : string) :
  fresh (current_stats self) →
  class_name (current_stats self) = Some cls →
  let wrong := filter (λ c, is_right c = false)
                      (answered (current_quiz ss) (user_answers ss)) in
  ∃ saved_flag saved,
    (submit_button self now ss).2 = Return (saved_flag, saved)
    ∧ match missed_data saved with
      | None => wrong = []
      | Some rows =>
          wrong ≠ []
          ∧ rows = export_row <$> wrong
          ∧ Forall (λ r, your_answer r ≠ Some (missed_correct_answer r)) rows
      end.
Proof.
  intros (Ht0 & Hc0 & _ & Hm0) Hcls wrong.
  set (calls := answered (current_quiz ss) (user_answers ss)) in *.
  set (self' := (submit_button self now ss).1.1).
  assert (self' = submit_all self calls) as Heq.
  { unfold self', submit_button. cbn [fst]. rewrite submit_loop_calls.
    unfold calls, answered. do 2 f_equal. }
  assert ((submit_button self now ss).2 = save_quiz_session self' now) as -> by done.
  assert (missed_questions (current_stats self') = missed_record <$> wrong) as Hmissed.
  { by rewrite Heq, submit_all_missed, Hm0. }
  assert (total_questions (current_stats self') = length calls
          ∧ correct_answers (current_stats self') = count_right calls)
    as [Htot Hcor].
  { rewrite Heq. destruct (submit_all_counts calls self) as (Ht & Hc & _).
    rewrite Ht, Hc, Ht0, Hc0. done. }
  pose proof (count_right_le calls) as Hle.
  assert (class_name (current_stats self') = Some cls) as Hcn
    by (by rewrite Heq, submit_all_class_name).
  assert (Forall (λ c, is_right c = false) wrong) as Hwr.
  { subst wrong. apply Forall_forall. by intros c [? _]%list_elem_of_filter. }
  assert (calls = [] → wrong = []) as Hnil by (by intros Hc; subst wrong; rewrite Hc).
  clearbody self' calls wrong.
  destruct calls as [|c0 calls].
  - exists false, self'. split; [by apply save_quiz_session_empty|].
    rewrite (missed_data_of_calls self' wrong Hmissed), Hnil by done.
    by destruct (history self').
  - eexists true, _. split.
    { apply (save_quiz_session_started self' now cls); [| |done].
      - rewrite Htot. simpl. lia.
      - by rewrite Htot, Hcor. }
    rewrite (missed_data_of_calls _ wrong) by done.
    cbn [history].
    destruct (history self' ++ [session_data_of (current_stats self') cls now])
      as [|e h] eqn:Hh; [by destruct (history self')|].
    destruct wrong as [|c wrong]; [done|].
    split_and!; [done|done|].
    apply Forall_fmap. eapply Forall_impl; [exact Hwr|].
    intros [[q a] n] Hr. simpl. unfold is_right in Hr. simpl in Hr.
    by apply bool_decide_eq_false in Hr.
Qed.

Lemma missed_export_after_submit_witness :
  let q1 := mkQuestion "Ch1" "Q1?" "R1" "A" ["B"; "C"; "D"] in
  let q2 := mkQuestion "Ch2" "Q2?" "R2" "X" ["Y"; "Z"; "W"] in
  let pool : dict string (list Question) := [("Ch1", [q1]); ("Ch2", [q2])] in
  let self := (start_quiz __init__ 5 [] "Biology" ["Ch1"; "Ch2"] 2 pool).1.2 in
  let ss := mkSessionState [q1; q2; q1] 0 [Some "B"; None; Some "A"] None in
  fresh (current_stats self)
  ∧ class_name (current_stats self) = Some "Biology"
  ∧ ∃ saved_flag saved,
      (submit_button self 9 ss).2 = Return (saved_flag, saved)
      ∧ missed_data saved = Some [mkMissedRow "Ch1" "Q1?" (Some "B") "A" "R1"].
Proof.
  intros q1 q2 pool self ss.
  assert (fresh (current_stats self)) as Hf by apply start_quiz_fresh.
  assert (class_name (current_stats self) = Some "Biology") as Hc by reflexivity.
  split; [exact Hf|]. split; [exact Hc|].
  destruct (missed_export_after_submit self 9 ss "Biology" Hf Hc)
    as (saved_flag & saved & Hs & Hd).
  exists saved_flag, saved. split; [exact Hs|].
  destruct (missed_data saved) as [rows|].
  - destruct Hd as (_ & -> & _). reflexivity.
  - discriminate Hd.
Defined.

(** ** What the history holds, whatever the calls *)

(** The invariant of a manager: the counters of the statistics add up,
    and so do those of every saved entry; and a call leaves what the
    saved entries hold of their own as it is. *)
Lemma api_step_invariant self c :
  total_questions (current_stats self)
    = correct_answers (current_stats self)
      + length (missed_questions (current_stats self)) →
  Forall entry_consistent (history self) →
  total_questions (current_stats (api_step self c))
    = correct_answers (current_stats (api_step self c))
      + length (missed_questions (current_stats (api_step self c)))
  ∧ Forall entry_consistent (history (api_step self c))
  ∧ (entry_own <$> history self)
    `prefix_of` (entry_own <$> history (api_step self c)).
Proof.
  intros Hst Hh. destruct c as [now g cls chs k pool|q a n|now]; cbn [api_step].
  - rewrite start_quiz_unfold.
    by destruct (collect_questions chs pool).
  - destruct (submit_answer_step self q a n)
      as (_ & Ht & Hc & Hm & _ & _ & _ & _ & Hhist).
    rewrite Ht, Hc, Hm, Hhist, length_app. split_and!; [|done|done].
    destruct (bool_decide _); simpl; lia.
  - destruct (decide (0 < total_questions (current_stats self))) as [Hpos|Hz].
    + destruct (class_name (current_stats self)) as [cn|] eqn:Hcn.
      * rewrite (save_quiz_session_started self now cn Hpos ltac:(lia) Hcn). simpl.
        split_and!; [done| |rewrite fmap_app; by apply prefix_app_r].
        apply Forall_app. split; [done|]. apply Forall_singleton.
        split; simpl; [done|exact Hst].
      * by rewrite (save_quiz_session_not_started self now Hpos Hcn).
    + by rewrite save_quiz_session_empty by lia.
Qed.

(** X8. Whatever calls of [start_quiz], [submit_answer] and
    [save_quiz_session] a new manager receives, in any order, every
    entry of the history records at least one question, with
    [total_questions] the sum of [correct_answers] and the number of
    missed questions: no empty session is ever recorded.  And the
    history only grows at its end: what the entries hold of their own
    (every field but the per-chapter counts, whose dictionaries the
    shallow copy shares with the accumulator) is left as it is by every
    later call. *)
Theorem history_entries_consistent (calls : list api_call) :
  Forall entry_consistent (history (api_run __init__ calls))
  ∧ ∀ more, (entry_own <$> history (api_run __init__ calls))
            `prefix_of` (entry_own <$> history (api_run __init__ (calls ++ more))).
Proof.
  assert (∀ calls self,
            total_questions (current_stats self)
              = correct_answers (current_stats self)
                + length (missed_questions (current_stats self)) →
            Forall entry_consistent (history self) →
            (total_questions (current_stats (api_run self calls))
               = correct_answers (current_stats (api_run self calls))
                 + length (missed_questions (current_stats (api_run self calls))))
            ∧ Forall entry_consistent (history (api_run self calls))
            ∧ (entry_own <$> history self)
              `prefix_of` (entry_own <$> history (api_run self calls))) as Hrun.
  { clear calls. induction calls as [|c calls IH]; intros self Hst Hh; [done|].
    destruct (api_step_invariant self c Hst Hh) as (Hst' & Hh' & Hp).
    destruct (IH (api_step self c) Hst' Hh') as (? & ? & Hp').
    split_and!; [done|done|]. by etrans. }
  destruct (Hrun calls __init__) as (Hst & Hh & _); [done|constructor|].
  split; [done|]. intros more. unfold api_run. rewrite foldl_app.
  by apply Hrun.
Qed.

(** ** The quiz page between the start and the submission *)

Lemma page_step_invariant st ev :
  current_question st.1 < length (current_quiz st.1) →
  current_quiz (page_step st ev).1 = current_quiz st.1
  ∧ length (user_answers (page_step st ev).1) = length (user_answers st.1)
  ∧ current_question (page_step st ev).1 < length (current_quiz st.1).
Proof.
  intros Hidx. destruct st as [ss g]. simpl in *.
  destruct ev as [radio| |]; simpl.
  - destruct (lookup_lt_is_Some_2 _ _ Hidx) as [q Hq].
    rewrite (display_quiz_question_unfold g radio ss q Hq). simpl.
    by rewrite length_insert.
  - unfold previous_question. case_decide; simpl; split_and!; try done; lia.
  - unfold next_question. case_decide; simpl; split_and!; try done; lia.
Qed.

Lemma page_run_invariant events : ∀ st,
  current_question st.1 < length (current_quiz st.1) →
  current_question (page_run st events).1 < length (current_quiz st.1)
  ∧ current_quiz (page_run st events).1 = current_quiz st.1
  ∧ length (user_answers (page_run st events).1) = length (user_answers st.1).
Proof.
  induction events as [|ev events IH]; intros st Hidx; [done|].
  destruct (page_step_invariant st ev Hidx) as (Hq & Hl & Hi).
  destruct (IH (page_step st ev)) as (Hi' & Hq' & Hl'); [by rewrite Hq|].
  simpl. rewrite Hq in Hi', Hq'. rewrite Hl in Hl'. done.
Qed.

(** X9. On the quiz page of a session with one answer slot per
    question and its position inside the quiz, whatever the sequence of
    displays and of presses of the two navigation buttons, the position
    stays inside the quiz, the questions of the session stay as they
    are, and there is still one answer slot per question: no display
    ever writes outside the list of answers. *)
Theorem page_position_in_bounds (ss : SessionState) (g : rng)
    (events : list page_event) :
  current_question ss < length (current_quiz ss) →
  length (user_answers ss) = length (current_quiz ss) →
  let ss' := (page_run (ss, g) events).1 in
  current_question ss' < length (current_quiz ss')
  ∧ current_quiz ss' = current_quiz ss
  ∧ length (user_answers ss') = length (current_quiz ss').
Proof.
  intros Hidx Hlen ss'.
  destruct (page_run_invariant events (ss, g) Hidx) as (Hi & Hq & Hl).
  fold ss' in Hi, Hq, Hl. simpl in Hi, Hq, Hl.
  rewrite Hq. split_and!; [done|done|by rewrite Hl].
Qed.

Lemma page_position_in_bounds_witness :
  current_question two_question_session < length (current_quiz two_question_session)
  ∧ length (user_answers two_question_session)
    = length (current_quiz two_question_session)
  ∧ current_question
      (page_run (two_question_session, [0; 1; 2])
                [PressPrevious; Display first_option; PressNext; PressNext;
                 PressNext]).1 < 2.
Proof.
  assert (current_question two_question_session
          < length (current_quiz two_question_session)) as Hidx
    by (vm_compute; lia).
  assert (length (user_answers two_question_session)
          = length (current_quiz two_question_session)) as Hlen by reflexivity.
  split; [exact Hidx|]. split; [exact Hlen|].
  exact (proj1 (page_position_in_bounds two_question_session [0; 1; 2]
                  [PressPrevious; Display first_option; PressNext; PressNext;
                   PressNext] Hidx Hlen)).
Defined.

Lemma page_step_answers st ev :
  radio_honest ev → answers_from_options st.1 →
  answers_from_options (page_step st ev).1.
Proof.
  intros Hr Hans. destruct st as [ss g]. simpl in *.
  destruct ev as [radio| |]; simpl;
    [|unfold previous_question; case_decide; exact Hans
     |unfold next_question; case_decide; exact Hans].
  unfold display_quiz_question.
  destruct (current_quiz ss !! current_question ss) as [q|] eqn:Hq; [|done].
  fold (options_of q).
  destruct (shuffle g (options_of q)) as [options g'] eqn:Hs. simpl.
  intros i a Hi. simpl in Hi.
  apply list_lookup_insert_Some in Hi as [(<- & Hra & _)|[_ Hi]].
  - exists q. split; [done|].
    apply Hr in Hra.
    assert (options = (shuffle g (options_of q)).1) as -> by (by rewrite Hs).
    by rewrite shuffle_Permutation in Hra.
  - simpl. by apply Hans.
Qed.

(** X10. If the radio widget only ever reports one of the options it
    shows, then in a session with one answer slot per question and its
    position inside the quiz, whatever the displays and the navigation,
    every answer recorded for a position is one of the options of the
    question at that position: one of its alternatives or its correct
    answer. *)
Theorem recorded_answers_are_options (ss : SessionState) (g : rng)
    (events : list page_event) :
  current_question ss < length (current_quiz ss) →
  length (user_answers ss) = length (current_quiz ss) →
  Forall radio_honest events →
  answers_from_options ss →
  answers_from_options (page_run (ss, g) events).1.
Proof.
  intros _ _ Hev Hans.
  assert (∀ events st, Forall radio_honest events →
            answers_from_options st.1 →
            answers_from_options (page_run st events).1) as Hrun.
  { clear. induction events as [|ev events IH]; intros st Hev Hans; [done|].
    apply Forall_cons in Hev as [Hr Hev].
    simpl. apply IH; [done|]. by apply page_step_answers. }
  by apply (Hrun events (ss, g)).
Qed.

Lemma recorded_answers_are_options_witness :
  current_question two_question_session < length (current_quiz two_question_session)
  ∧ length (user_answers two_question_session)
    = length (current_quiz two_question_session)
  ∧ Forall radio_honest [Display first_option; PressNext; Display first_option]
  ∧ answers_from_options two_question_session
  ∧ answers_from_options
      (page_run (two_question_session, [0; 1; 2])
                [Display first_option; PressNext; Display first_option]).1.
Proof.
  assert (radio_honest (Display first_option)) as Hfirst.
  { intros options a. unfold first_option. destruct options; [done|].
    intros [= ->]. left. }
  assert (Forall radio_honest
            [Display first_option; PressNext; Display first_option]) as Hev
    by (repeat constructor; exact Hfirst).
  assert (answers_from_options two_question_session) as Hans.
  { intros i a Hi. by destruct i as [|[|i]]. }
  assert (current_question two_question_session
          < length (current_quiz two_question_session)) as Hidx
    by (vm_compute; lia).
  assert (length (user_answers two_question_session)
          = length (current_quiz two_question_session)) as Hlen by reflexivity.
  split; [exact Hidx|]. split; [exact Hlen|].
  split; [exact Hev|]. split; [exact Hans|].
  exact (recorded_answers_are_options two_question_session [0; 1; 2] _
           Hidx Hlen Hev Hans).
Defined.

(** ** A whole session: start, answers, submission *)

Lemma omap_length_le {X Y} (f : X → option Y) (l : list X) :
  length (omap f l) ≤ length l.
Proof.
  induction l as [|x l IH]; [done|]. csimpl.
  destruct (f x); simpl; lia.
Qed.

Lemma answered_length questions answers :
  length (answered questions answers) ≤ length questions.
Proof.
  unfold answered. etrans; [apply omap_length_le|].
  rewrite length_imap, length_zip_with. lia.
Qed.

(** X11. A session started from the quiz page is recorded exactly when
    at least one of its questions carries an answer at the submission.
    After a start with an allowed count, any displays and navigation,
    and the button [Submit Quiz]: the flags say completed; with no
    answered position nothing is appended to the history and the save
    returns [False]; otherwise the save returns [True] and appends one
    entry for the class and chapters of the start, whose
    [total_questions] is the number of answered positions (at most the
    count), [correct_answers] the number answered rightly, and missed
    count the rest. *)
Theorem session_recorded_iff_answered (self : QuizManager) (now0 now : Z)
    (g : rng) (ss0 : SessionState) (flags : PageFlags) (cls : string)
    (chs : list string) (k : Z) (pool : dict string (list Question))
    (n : nat) (events : list page_event) :
  total_available chs pool = Return n →
  (1 ≤ k ≤ Z.of_nat n)%Z →
  let started := start_button self now0 g ss0 flags cls chs k pool in
  let ss := (page_run (started.1.1.1.2, started.1.2) events).1 in
  let r := submit_button started.1.1.1.1 now ss in
  let calls := answered (current_quiz ss) (user_answers ss) in
  r.1.2 = {| quiz_started := false; quiz_completed := true |}
  ∧ length calls ≤ Z.to_nat k
  ∧ match calls with
    | [] => r.2 = Return (false, r.1.1) ∧ history r.1.1 = history self
    | _ :: _ =>
        ∃ entry,
          r.2 = Return (true,
                        {| quizzes := quizzes r.1.1;
                           history := history self ++ [entry];
                           current_stats := current_stats r.1.1 |})
          ∧ sd_class_name entry = cls
          ∧ sd_selected_chapters entry = chs
          ∧ sd_total_questions entry = length calls
          ∧ sd_correct_answers entry = count_right calls
          ∧ sd_missed_questions entry = length calls - count_right calls
    end.
Proof.
  intros Hn Hk started ss r calls.
  destruct (start_button_success self now0 g ss0 flags cls chs k pool n Hn Hk)
    as [Hstart Hlen].
  set (ss1 := started.1.1.1.2) in *. set (qm1 := started.1.1.1.1) in *.
  assert (qm1 = with_stats self (reset_stats now0 cls chs)) as Hqm
    by (unfold qm1, started; by rewrite Hstart).
  assert (length (current_quiz ss1) = Z.to_nat k ∧ current_question ss1 = 0)
    as [Hquiz Hpos] by (unfold ss1, started; by rewrite Hstart).
  destruct (page_run_invariant events (ss1, started.1.2)) as (_ & Hq & _);
    [simpl; lia|].
  simpl in Hq. fold ss in Hq.
  split; [done|]. split.
  { etrans; [apply answered_length|]. by rewrite Hq, Hquiz. }
  set (qm2 := r.1.1).
  assert (qm2 = submit_all qm1 calls) as Hqm2.
  { unfold qm2, r, submit_button. cbn [fst]. rewrite submit_loop_calls.
    unfold calls, answered. do 2 f_equal. }
  destruct (submit_all_counts calls qm1) as (Ht & Hc & Hm & _).
  rewrite <-Hqm2 in Ht, Hc, Hm. rewrite Hqm in Ht, Hc, Hm. simpl in Ht, Hc, Hm.
  assert (class_name (current_stats qm2) = Some cls
          ∧ selected_chapters (current_stats qm2) = Some chs
          ∧ history qm2 = history self) as (Hcn & Hsel & Hhist).
  { rewrite Hqm2, submit_all_class_name, submit_all_selected_chapters,
      submit_all_history, Hqm. done. }
  assert (r.2 = save_quiz_session qm2 now) as Hr2 by done.
  rewrite Hr2. clearbody calls qm2. clear Hr2.
  destruct calls as [|c calls].
  - split; [|done]. apply save_quiz_session_empty. by rewrite Ht.
  - exists (session_data_of (current_stats qm2) cls now).
    rewrite (save_quiz_session_started qm2 now cls);
      [|rewrite Ht; simpl; lia
       |rewrite Ht, Hc; apply (count_right_le (c :: calls))|done].
    rewrite Hhist. simpl. rewrite Hsel. by split_and!.
Qed.

Lemma session_recorded_iff_answered_witness :
  let q1 := mkQuestion "Ch1" "Q1?" "R1" "A" ["B"; "C"; "D"] in
  let q2 := mkQuestion "Ch1" "Q2?" "R2" "X" ["Y"; "Z"; "W"] in
  let pool : dict string (list Question) := [("Ch1", [q1; q2])] in
  let started := start_button __init__ 0 [1] (mkSessionState [] 0 [] None)
                   (mkPageFlags false false) "Biology" ["Ch1"] 2 pool in
  let ss := (page_run (started.1.1.1.2, started.1.2)
                      [Display first_option; PressNext]).1 in
  total_available ["Ch1"] pool = Return 2
  ∧ (1 ≤ 2 ≤ Z.of_nat 2)%Z
  ∧ (submit_button started.1.1.1.1 9 ss).1.2
    = {| quiz_started := false; quiz_completed := true |}
  ∧ length (answered (current_quiz ss) (user_answers ss)) ≤ 2.
Proof.
  intros q1 q2 pool started ss.
  assert (total_available ["Ch1"] pool = Return 2) as Hn by reflexivity.
  assert (1 ≤ 2 ≤ Z.of_nat 2)%Z as Hk by lia.
  split; [exact Hn|]. split; [exact Hk|].
  destruct (session_recorded_iff_answered __init__ 0 9 [1]
              (mkSessionState [] 0 [] None) (mkPageFlags false false)
              "Biology" ["Ch1"] 2 pool 2
              [Display first_option; PressNext] Hn Hk) as (Hf & Hl & _).
  split; [exact Hf|exact Hl].
Defined.

(** ** What a successful [load_csv] returns *)

Lemma first_seen_NoDup l : NoDup (first_seen l).
Proof.
  induction l as [|c l IH]; simpl; [constructor|].
  apply NoDup_cons. split.
  - rewrite list_elem_of_filter. by intros [? _].
  - by apply NoDup_filter.
Qed.

Lemma dget_of_elem {K V} `{EqDecision K} (d : dict K V) k v :
  NoDup (dkeys d) → (k, v) ∈ d → dget k d = Some v.
Proof.
  unfold dkeys. induction d as [|[k' v'] d IH]; intros Hnd Hin.
  - by apply elem_of_nil in Hin.
  - csimpl in Hnd. apply NoDup_cons in Hnd as [Hk' Hnd]. simpl.
    apply elem_of_cons in Hin as [[= -> ->]|Hin].
    + by rewrite decide_True.
    + rewrite decide_False; [by apply IH|].
      intros ->. apply Hk'. apply list_elem_of_fmap. by exists (k', v).
Qed.

Lemma organize_grouped qs : grouped (organize qs).
Proof.
  destruct (organize_spec qs) as (Hkeys & Hget & _).
  assert (NoDup (dkeys (organize qs))) as Hnd
    by (rewrite Hkeys; apply first_seen_NoDup).
  split; [done|]. apply Forall_forall. intros [c l] Hin.
  pose proof (dget_of_elem _ _ _ Hnd Hin) as Hd. rewrite Hget in Hd.
  destruct (decide (c ∈ chapter <$> qs)) as [Hc|]; [|done].
  injection Hd as <-. simpl. split.
  - apply list_elem_of_fmap in Hc as (q & -> & Hq).
    intros Hnil.
    eapply (filter_nil_not_elem_of _ _ q); [exact Hnil|done|done].
  - apply Forall_forall. by intros q [? _]%list_elem_of_filter.
Qed.

Lemma organize_elem qs c l q :
  (c, l) ∈ organize qs → q ∈ l → q ∈ qs.
Proof.
  intros Hin Hq. destruct (organize_spec qs) as (Hkeys & Hget & _).
  assert (NoDup (dkeys (organize qs))) as Hnd
    by (rewrite Hkeys; apply first_seen_NoDup).
  pose proof (dget_of_elem _ _ _ Hnd Hin) as Hd. rewrite Hget in Hd.
  destruct (decide (c ∈ chapter <$> qs)); [|done]. injection Hd as <-.
  by apply list_elem_of_filter in Hq as [_ ?].
Qed.

Lemma valid_questions_well_formed header records :
  Forall well_formed (valid_questions header records).
Proof.
  unfold valid_questions. apply Forall_fmap, Forall_forall.
  intros r [Hv (record & -> & _)%list_elem_of_fmap]%list_elem_of_filter.
  split; [done|].
  apply question_of_row_fields; [apply dict_row_ok|by destruct (row_valid _)].
Qed.

(** A successful load is a load of uploaded content with a header that
    has the columns and with a valid record. *)
Lemma load_csv_success fs filename file_content cq :
  load_csv fs filename file_content = (true, inr cq) →
  ∃ header records,
    file_content = upload (header :: records)
    ∧ has_required_columns header = true
    ∧ valid_questions header records ≠ []
    ∧ cq = organize (valid_questions header records).
Proof.
  destruct file_content as [[[text|e]]|].
  - destruct text as [|header records]; [discriminate|].
    fold (upload (header :: records)). rewrite load_csv_upload.
    destruct (has_required_columns header) eqn:Hreq; [|discriminate].
    destruct (valid_questions header records) eqn:Hvq; [discriminate|].
    intros [= <-]. exists header, records. rewrite Hvq. by split_and!.
  - discriminate.
  - unfold load_csv, load_csv_try. destruct (fs filename) as [file|]; [|discriminate].
    case_decide; discriminate.
Qed.

(** X12. Whatever it is given, when [load_csv] succeeds its result is a
    proper grouping: at least one chapter, the chapters pairwise
    distinct, no chapter without a question, every question filed under
    the chapter it names, and every question with exactly three
    alternatives and seven texts that are non-empty and free of leading
    and trailing white space. *)
Theorem load_csv_result_well_formed (fs : filesystem) (filename : string)
    (file_content : option UploadedFile) (cq : dict string (list Question)) :
  load_csv fs filename file_content = (true, inr cq) →
  cq ≠ [] ∧ grouped cq ∧ Forall (λ kv, Forall well_formed kv.2) cq.
Proof.
  intros (header & records & _ & _ & Hne & ->)%load_csv_success.
  split_and!.
  - intros Hnil.
    destruct (organize_spec (valid_questions header records)) as (_ & _ & Hc).
    rewrite Hnil in Hc. destruct (valid_questions header records); done.
  - apply organize_grouped.
  - apply Forall_forall. intros [c l] Hin. simpl.
    apply Forall_forall. intros q Hq.
    pose proof (valid_questions_well_formed header records) as Hwf.
    rewrite Forall_forall in Hwf. apply Hwf. by eapply organize_elem.
Qed.

Lemma load_csv_result_well_formed_witness :
  ∃ cq,
    load_csv (λ _, None) "quiz.csv" (upload (required_columns :: example_records))
      = (true, inr cq)
    ∧ cq ≠ [] ∧ grouped cq ∧ Forall (λ kv, Forall well_formed kv.2) cq.
Proof.
  eexists. 
  assert (load_csv (λ _, None) "quiz.csv"
            (upload (required_columns :: example_records))
          = (true, inr (organize (valid_questions required_columns example_records))))
    as Hload by (vm_compute; reflexivity).
  split; [exact Hload|].
  exact (load_csv_result_well_formed _ _ _ _ Hload).
Defined.

(** ** [load_csv] reads the seven required columns and nothing else *)

Lemma row_view_same r1 r2 :
  row_view r1 = row_view r2 →
  row_valid r1 = row_valid r2 ∧ question_of_row r1 = question_of_row r2.
Proof.
  unfold row_view, required_columns. cbn [fmap list_fmap].
  intros [= H1 H2 H3 H4 H5 H6 H7].
  unfold row_valid, question_of_row, raw_field, is_missing, required_columns.
  cbn [forallb]. by rewrite H1, H2, H3, H4, H5, H6, H7.
Qed.

Lemma valid_questions_rows header records :
  has_required_columns header = true →
  valid_questions header records
  = question_of_row <$> filter (λ r, row_valid r) (dict_row header <$> records).
Proof.
  intros Hreq. unfold valid_questions. f_equal.
  induction records as [|record records IH]; [done|].
  destruct (decide (record = [])) as [->|Hne].
  - rewrite filter_cons_False by (by intros ?). rewrite fmap_cons.
    rewrite (filter_cons_False _ (dict_row header []))
      by (rewrite dict_row_nil_invalid by done; intros []).
    exact IH.
  - rewrite filter_cons_True by done. rewrite !fmap_cons.
    destruct (row_valid (dict_row header record)) eqn:Hv.
    + rewrite !filter_cons_True by (rewrite Hv; exact I). by rewrite IH.
    + rewrite !filter_cons_False by (rewrite Hv; intros []). exact IH.
Qed.

Lemma rows_same_view (rows1 : list row) : ∀ rows2 : list row,
  row_view <$> rows1 = row_view <$> rows2 →
  question_of_row <$> filter (λ r, row_valid r) rows1
  = question_of_row <$> filter (λ r, row_valid r) rows2.
Proof.
  induction rows1 as [|r1 rows1 IH]; intros [|r2 rows2] Heq; try done.
  rewrite !fmap_cons in Heq.
  assert (row_view r1 = row_view r2
          ∧ row_view <$> rows1 = row_view <$> rows2) as [Hr Heq']
    by (split; congruence).
  clear Heq.
  destruct (row_view_same r1 r2 Hr) as [Hv Hq].
  destruct (row_valid r1) eqn:Hv1.
  - rewrite !filter_cons_True by (rewrite <-?Hv, ?Hv1; exact I).
    rewrite !fmap_cons, Hq. f_equal. by apply IH.
  - rewrite !filter_cons_False by (rewrite <-?Hv, ?Hv1; intros []).
    by apply IH.
Qed.

(** X13. [load_csv] reads nothing but the values under the seven
    required columns: two uploaded contents whose headers both have
    these columns, and whose records hold the same values under them,
    record by record, load to the same result, whatever the order of the
    columns, the other columns and their values, and the file name. *)
Theorem load_csv_reads_required_columns_only (fs1 fs2 : filesystem)
    (filename1 filename2 : string) (header1 header2 : list string)
    (records1 records2 : list (list string)) :
  has_required_columns header1 = true →
  has_required_columns header2 = true →
  required_view header1 <$> records1 = required_view header2 <$> records2 →
  load_csv fs1 filename1 (upload (header1 :: records1))
  = load_csv fs2 filename2 (upload (header2 :: records2)).
Proof.
  intros Hreq1 Hreq2 Hview.
  rewrite !load_csv_upload, Hreq1, Hreq2.
  assert (valid_questions header1 records1 = valid_questions header2 records2)
    as ->; [|done].
  rewrite !valid_questions_rows by done. apply rows_same_view.
  rewrite <-!list_fmap_compose. exact Hview.
Qed.

Lemma load_csv_reads_required_columns_only_witness :
  has_required_columns required_columns = true
  ∧ has_required_columns shuffled_header = true
  ∧ required_view required_columns <$> example_records
    = required_view shuffled_header <$> shuffled_records
  ∧ load_csv (λ _, None) "a.csv" (upload (required_columns :: example_records))
    = load_csv (λ _, None) "b.csv" (upload (shuffled_header :: shuffled_records)).
Proof.
  assert (has_required_columns required_columns = true) as H1 by reflexivity.
  assert (has_required_columns shuffled_header = true) as H2
    by (vm_compute; reflexivity).
  assert (required_view required_columns <$> example_records
          = required_view shuffled_header <$> shuffled_records) as H3
    by (vm_compute; reflexivity).
  split; [exact H1|]. split; [exact H2|]. split; [exact H3|].
  exact (load_csv_reads_required_columns_only _ _ _ _ _ _ _ _ H1 H2 H3).
Defined.

(** ** [load_quiz_set]: the class registry *)

(** X14. The button [Load Questions] touches the registry only on
    success.  For an uploaded CSV whose header has the required columns
    and which has a valid record, the grouped questions are stored under
    the class name, replacing what was stored under that name and
    leaving every other class, the history and the statistics as they
    were, and the banner shows the number of valid records and the
    number of distinct chapters among them.  For any other upload the
    manager is left exactly as it was and a failure message is shown. *)
Theorem load_questions_registry (self : QuizManager) (fs : filesystem)
    (cls : string) (uploaded : UploadedFile) :
  let r := load_questions self fs cls uploaded in
  (∀ header records,
     decode_utf8 uploaded = Return (header :: records) →
     has_required_columns header = true →
     valid_questions header records ≠ [] →
     let qs := valid_questions header records in
     dget cls (quizzes r.1) = Some (organize qs)
     ∧ (∀ c, c ≠ cls → dget c (quizzes r.1) = dget c (quizzes self))
     ∧ (cls ∈ dkeys (quizzes self) → dkeys (quizzes r.1) = dkeys (quizzes self))
     ∧ history r.1 = history self
     ∧ current_stats r.1 = current_stats self
     ∧ r.2 = inr (length qs, length (first_seen (chapter <$> qs))))
  ∧ ((load_csv fs EmptyString (Some uploaded)).1 = false →
     r.1 = self ∧ ∃ message, r.2 = inl message).
Proof.
  intros r. subst r. split.
  - intros header records Hdec Hreq Hne qs.
    assert (load_csv fs EmptyString (Some uploaded) = (true, inr (organize qs)))
      as Hload.
    { destruct uploaded as [d]. simpl in Hdec. subst d.
      change (Some (mkUploadedFile (Return (header :: records))))
        with (upload (header :: records)).
      rewrite load_csv_upload, Hreq.
      fold qs. fold qs in Hne. by destruct qs. }
    unfold load_questions. rewrite Hload.
    cbn [fst snd quizzes history current_stats].
    destruct (organize_spec qs) as (Hkeys & _ & Hcount).
    split_and!; try done.
    + apply dget_dset_eq.
    + intros c Hc. by apply dget_dset_ne.
    + apply dkeys_dset_mem.
    + fold (question_count (organize qs)). rewrite Hcount.
      do 2 f_equal. rewrite <-Hkeys. unfold dkeys. by rewrite length_fmap.
  - unfold load_questions.
    destruct (load_csv fs EmptyString (Some uploaded)) as [[|] [message|result]];
      try done; intros _; split; try done; by eexists.
Qed.

Lemma load_questions_registry_witness :
  let uploaded := mkUploadedFile (Return (required_columns :: example_records)) in
  let r := load_questions __init__ (λ _, None) "Biology" uploaded in
  decode_utf8 uploaded = Return (required_columns :: example_records)
  ∧ has_required_columns required_columns = true
  ∧ valid_questions required_columns example_records ≠ []
  ∧ r.2 = inr (3, 2).
Proof.
  intros uploaded r.
  assert (decode_utf8 uploaded = Return (required_columns :: example_records))
    as Hdec by reflexivity.
  assert (has_required_columns required_columns = true) as Hreq by reflexivity.
  assert (valid_questions required_columns example_records ≠ []) as Hne
    by (vm_compute; discriminate).
  split; [exact Hdec|]. split; [exact Hreq|]. split; [exact Hne|].
  destruct (proj1 (load_questions_registry __init__ (λ _, None) "Biology" uploaded)
              _ _ Hdec Hreq Hne) as (_ & _ & _ & _ & _ & Hr).
  fold r in Hr. rewrite Hr. by vm_compute.
Defined.

(** ** [get_questions_df]: the table of all questions *)

Lemma question_rows_ok qs :
  Forall (λ q, 3 ≤ length (alternatives q)) qs →
  ∃ rows, question_rows qs = Return rows
          ∧ row_question <$> rows = question_text <$> qs
          ∧ row_chapter <$> rows = chapter <$> qs.
Proof.
  induction 1 as [|q qs Hq _ (rows & Hrows & Ht & Hc)]; [by exists []|].
  simpl. unfold question_row, list_item.
  destruct (alternatives q) as [|a1 [|a2 [|a3 alts]]]; simpl in Hq; try lia.
  simpl. rewrite Hrows. simpl. eexists. split; [done|].
  by rewrite !fmap_cons, Ht, Hc.
Qed.

Lemma question_rows_short qs :
  Exists (λ q, length (alternatives q) < 3) qs →
  question_rows qs = Raise (IndexError "list index out of range").
Proof.
  induction qs as [|q qs IH]; intros Hex; [by apply Exists_nil in Hex|].
  simpl. unfold question_row, list_item.
  destruct (alternatives q) as [|a1 [|a2 [|a3 alts]]] eqn:Ha; try done.
  simpl. apply Exists_cons in Hex as [Hq|Hex].
  - rewrite Ha in Hq. simpl in Hq. lia.
  - by rewrite IH.
Qed.

Lemma get_questions_df_ok cq :
  Forall (λ kv, Forall (λ q, 3 ≤ length (alternatives q)) kv.2) cq →
  ∃ rows, get_questions_df cq = Return rows
          ∧ row_question <$> rows = question_text <$> mjoin (dvalues cq)
          ∧ row_chapter <$> rows = chapter <$> mjoin (dvalues cq).
Proof.
  unfold dvalues.
  induction 1 as [|[c qs] cq Hqs _ (rows & Hrows & Ht & Hc)]; [by exists []|].
  simpl in Hqs. destruct (question_rows_ok qs Hqs) as (rows1 & Hr1 & Ht1 & Hc1).
  simpl. rewrite Hr1. simpl. rewrite Hrows. simpl.
  exists (rows1 ++ rows). split; [done|].
  csimpl. by rewrite !fmap_app, Ht, Hc, Ht1, Hc1.
Qed.

(** X15. The table of all questions has one row per question, chapter
    after chapter in the order of the dictionary and question after
    question within a chapter, provided every question has at least
    three alternatives; a question with fewer makes [get_questions_df]
    raise [IndexError] instead of returning a table. *)
Theorem get_questions_df_rows (cq : dict string (list Question)) :
  (Forall (λ kv, Forall (λ q, 3 ≤ length (alternatives q)) kv.2) cq →
   ∃ rows, get_questions_df cq = Return rows
           ∧ length rows = question_count cq
           ∧ row_question <$> rows = question_text <$> mjoin (dvalues cq)
           ∧ row_chapter <$> rows = chapter <$> mjoin (dvalues cq))
  ∧ (Exists (λ kv, Exists (λ q, length (alternatives q) < 3) kv.2) cq →
     get_questions_df cq = Raise (IndexError "list index out of range")).
Proof.
  split.
  - intros Hall. destruct (get_questions_df_ok cq Hall) as (rows & Hr & Ht & Hc).
    exists rows. split_and!; try done.
    assert (length (row_question <$> rows)
            = length (question_text <$> mjoin (dvalues cq))) as Hl by (by rewrite Ht).
    rewrite !length_fmap in Hl. rewrite Hl. unfold question_count.
    clear. induction (dvalues cq) as [|l ls IH]; [done|].
    csimpl. rewrite length_app. by rewrite IH.
  - induction cq as [|[c qs] cq IH]; intros Hex; [by apply Exists_nil in Hex|].
    simpl. destruct (decide (Exists (λ q, length (alternatives q) < 3) qs))
      as [Hq|Hq].
    + by rewrite question_rows_short.
    + apply Exists_cons in Hex as [Hex|Hex]; [done|].
      apply not_Exists_Forall in Hq; [|apply _].
      destruct (question_rows_ok qs) as (rows & Hr & _).
      { eapply Forall_impl; [exact Hq|]. intros q Hn. simpl in Hn. lia. }
      rewrite Hr. simpl. by rewrite IH.
Qed.

Lemma get_questions_df_rows_witness :
  let q1 := mkQuestion "Ch1" "Q1?" "R1" "A" ["B"; "C"; "D"] in
  let q2 := mkQuestion "Ch2" "Q2?" "R2" "X" ["Y"; "Z"] in
  Forall (λ kv, Forall (λ q, 3 ≤ length (alternatives q)) kv.2) [("Ch1", [q1])]
  ∧ (∃ rows, get_questions_df [("Ch1", [q1])] = Return rows ∧ length rows = 1)
  ∧ Exists (λ kv, Exists (λ q, length (alternatives q) < 3) kv.2)
           [("Ch1", [q1]); ("Ch2", [q2])]
  ∧ get_questions_df [("Ch1", [q1]); ("Ch2", [q2])]
    = Raise (IndexError "list index out of range").
Proof.
  intros q1 q2.
  assert (Forall (λ kv : string * list Question,
                    Forall (λ q, 3 ≤ length (alternatives q)) kv.2)
                 [("Ch1", [q1])]) as Hall
    by (repeat constructor).
  assert (Exists (λ kv : string * list Question,
                    Exists (λ q, length (alternatives q) < 3) kv.2)
                 [("Ch1", [q1]); ("Ch2", [q2])]) as Hex
    by (apply Exists_cons_tl, Exists_cons_hd, Exists_cons_hd; simpl; lia).
  split; [exact Hall|]. split.
  - destruct (proj1 (get_questions_df_rows [("Ch1", [q1])]) Hall)
      as (rows & Hr & Hl & _).
    exists rows. split; [exact Hr|exact Hl].
  - split; [exact Hex|].
    exact (proj2 (get_questions_df_rows [("Ch1", [q1]); ("Ch2", [q2])]) Hex).
Defined.

(** X16. A class that [load_csv] has loaded can always be shown: on the
    result of a successful load [get_questions_df] raises nothing and
    returns the table with one row for every valid record of the CSV. *)
Theorem loaded_class_can_be_shown (fs : filesystem) (filename : string)
    (header : list string) (records : list (list string))
    (cq : dict string (list Question)) :
  load_csv fs filename (upload (header :: records)) = (true, inr cq) →
  ∃ rows, get_questions_df cq = Return rows
          ∧ length rows
            = length (filter (λ record, row_valid (dict_row header record) = true)
                             records).
Proof.
  intros Hload.
  destruct (load_csv_success _ _ _ _ Hload)
    as (header' & records' & [= <- <-] & Hreq & Hne & ->).
  set (qs := valid_questions header records).
  destruct (get_questions_df_ok (organize qs)) as (rows & Hr & Ht & _).
  { apply Forall_forall. intros [c l] Hin. simpl.
    apply Forall_forall. intros q Hq.
    pose proof (valid_questions_well_formed header records) as Hwf.
    rewrite Forall_forall in Hwf.
    destruct (Hwf q) as [Hlen _]; [by eapply organize_elem|]. lia. }
  exists rows. split; [done|].
  assert (length (row_question <$> rows)
          = length (question_text <$> mjoin (dvalues (organize qs)))) as Hl
    by (by rewrite Ht).
  rewrite !length_fmap in Hl. rewrite Hl.
  destruct (organize_spec qs) as (_ & _ & Hcount).
  assert (length (mjoin (dvalues (organize qs))) = question_count (organize qs)) as ->.
  { unfold question_count. clear.
    induction (dvalues (organize qs)) as [|l ls IH]; [done|].
    csimpl. rewrite length_app. by rewrite IH. }
  rewrite Hcount. unfold qs. rewrite valid_questions_rows by done.
  rewrite length_fmap. clear.
  induction records as [|record records IH]; [done|].
  rewrite fmap_cons. destruct (row_valid (dict_row header record)) eqn:Hv.
  - rewrite filter_cons_True by (rewrite Hv; exact I).
    rewrite (filter_cons_True _ record) by exact Hv. simpl. by rewrite IH.
  - rewrite filter_cons_False by (rewrite Hv; intros []).
    rewrite (filter_cons_False _ record) by (by rewrite Hv). exact IH.
Qed.

Lemma loaded_class_can_be_shown_witness :
  load_csv (λ _, None) "quiz.csv" (upload one_valid_one_blank)
    = (true, inr [("Ch1", [mkQuestion "Ch1" "Q1?" "R1" "A" ["B"; "C"; "D"]])])
  ∧ ∃ rows,
      get_questions_df [("Ch1", [mkQuestion "Ch1" "Q1?" "R1" "A" ["B"; "C"; "D"]])]
        = Return rows
      ∧ length rows = 1.
Proof.
  assert (load_csv (λ _, None) "quiz.csv" (upload one_valid_one_blank)
          = (true, inr [("Ch1", [mkQuestion "Ch1" "Q1?" "R1" "A" ["B"; "C"; "D"]])]))
    as Hload by (vm_compute; reflexivity).
  split; [exact Hload|].
  destruct (loaded_class_can_be_shown _ _ _ _ _ Hload) as (rows & Hr & Hl).
  exists rows. split; [exact Hr|]. rewrite Hl. reflexivity.
Defined.
